(** * AUD to VND exchange-rate bot: a shallow embedding

    The repository holds two variants of one Telegram bot,
    [mb_exchange_bot.py] (JSON API of open.er-api.com) and
    [mb_exchange_bot_webgia.py] (HTML table of webgia.com).  The variants
    differ in [scrape_aud_rate] only; the subscriber store
    ([load_subscribers], [save_subscribers], [subscribe_command],
    [unsubscribe_command]) and the daily broadcast ([send_daily_rate]) are
    the same code in both files.

    Conventions of the embedding.
    - Python exceptions are values of [exn]; code that may raise lives in
      the [result] monad, and [try: ... except ...:] is a [match] on it.
    - Library calls (aiohttp, BeautifulSoup, telegram, the file system) are
      represented by what they return to the program: an [upstream] reply,
      the cell texts of the first table, a per-recipient delivery outcome,
      the text of the subscriber file.
    - A Python [str] is held as the [string] of the bytes of its UTF-8
      encoding.  [str.upper] is followed on the ASCII letters; the regular
      expression class [\d] is the decimal digits of Unicode, read off
      the decoded characters.
    - Of the log, the records of the store and of the broadcast are kept;
      the two [logger.error] lines of [scrape_aud_rate] are not. *)

From Stdlib Require Import ZArith String Ascii List Lia Bool.
From Stdlib Require Import Floats.SpecFloat.
From Stdlib Require Import DecimalString DecimalZ.
From stdpp Require Import base gmap sets list strings.

Import ListNotations.
Local Open Scope string_scope.
Local Open Scope Z_scope.

(** ** Exceptions and results *)

(** The two classes of exception the handlers of the program tell apart:
    [asyncio.TimeoutError], and every other subclass of [Exception], of
    which only [str(e)] is ever used.  Signals outside [Exception] (a
    cancelled task, a keyboard interrupt) are not raised by the upstream,
    the file system or the recipients, and are left out. *)
Inductive exn : Type :=
| TimeoutError
| Error (msg : string).

Inductive result (A : Type) : Type :=
| Ok (a : A)
| Raise (e : exn).

Arguments Ok {A} a.
Arguments Raise {A} e.

Definition bind {A B : Type} (m : result A) (k : A -> result B) : result B :=
  match m with
  | Ok a => k a
  | Raise e => Raise e
  end.

Notation "'do' x <- m ; k" := (bind m (fun x => k))
  (at level 10, x name, m at level 100, k at level 200,
   format "'[v' 'do'  x  <-  m ; '/' k ']'").

(** ** Text helpers (Python [str] operations used by the program) *)

Definition is_digit (c : ascii) : bool :=
  let n := N_of_ascii c in ((48 <=? n) && (n <=? 57))%N.

Definition is_lower (c : ascii) : bool :=
  let n := N_of_ascii c in ((97 <=? n) && (n <=? 122))%N.

Definition upper_char (c : ascii) : ascii :=
  if is_lower c then ascii_of_N (N_of_ascii c - 32) else c.

(** [s.upper()].  Only the letters a to z change: upper-casing any other
    character yields none of the letters the program looks for. *)
Definition upper (s : string) : string :=
  string_of_list_ascii (map upper_char (list_ascii_of_string s)).

(** [needle in hay] *)
Fixpoint contains (needle hay : string) : bool :=
  String.prefix needle hay ||
  match hay with
  | EmptyString => false
  | String _ rest => contains needle rest
  end.

(** ** Characters

    A text is the UTF-8 encoding of a Python [str]: a character is a
    leading byte followed by its continuation bytes. *)

Definition byte (c : ascii) : Z := Z.of_N (N_of_ascii c).

(** A continuation byte, [10xxxxxx]. *)
Definition is_continuation (c : ascii) : bool :=
  (128 <=? byte c) && (byte c <? 192).

Definition payload (conts : list ascii) (start : Z) : Z :=
  fold_left (fun cp c => cp * 64 + Z.land (byte c) 63) conts start.

Definition between (lo hi cp : Z) : Z :=
  if (lo <=? cp) && (cp <=? hi) then cp else -1.

(** The code point a leading byte and the continuation bytes after it
    encode, [-1] when they encode none: a wrong number of continuation
    bytes, an over-long form, a surrogate, a value above U+10FFFF.  The
    encoding of a [str] holds no such group. *)
Definition code_point (lead : ascii) (conts : list ascii) : Z :=
  let b := byte lead in
  match conts with
  | [] => if b <? 128 then b else -1
  | [_] =>
      if (192 <=? b) && (b <? 224)
      then between 128 2047 (payload conts (Z.land b 31)) else -1
  | [_; _] =>
      if (224 <=? b) && (b <? 240)
      then
        let cp := between 2048 65535 (payload conts (Z.land b 15)) in
        if (55296 <=? cp) && (cp <=? 57343) then -1 else cp
      else -1
  | [_; _; _] =>
      if (240 <=? b) && (b <? 248)
      then between 65536 1114111 (payload conts (Z.land b 7)) else -1
  | _ => -1
  end.

(** One pass from the right: the continuation bytes not yet claimed by a
    leading byte, and the characters found, each with the bytes that
    encode it. *)
Fixpoint scan_chars (s : string) : list ascii * list (Z * string) :=
  match s with
  | EmptyString => ([], [])
  | String b rest =>
      let (conts, found) := scan_chars rest in
      if is_continuation b then (b :: conts, found)
      else ([], (code_point b conts, String b (string_of_list_ascii conts))
                  :: found)
  end.

(** The characters of a text, in order. *)
Definition characters (s : string) : list (Z * string) := snd (scan_chars s).

(** A character as the pass yields it: a leading byte, the continuation
    bytes after it, and the code point the two encode. *)
Definition encoded (ch : Z * string) : Prop :=
  exists lead conts,
    is_continuation lead = false /\
    Forall (fun c => is_continuation c = true) conts /\
    ch = (code_point lead conts, String lead (string_of_list_ascii conts)).

(** [''.join(parts)] *)
Definition join (parts : list string) : string :=
  fold_right String.append EmptyString parts.

(** The first and the last code point of every run of decimal digits
    (general category Nd) in the Unicode database of the interpreter,
    version 14.0 with CPython 3.11: the ASCII digits, the Arabic-Indic,
    Devanagari, ..., full-width and mathematical digits.  These are the
    characters that [\d] matches in a [str] pattern and for which
    [str.isdecimal] holds.  A later version of the database adds runs to
    the list; the proofs use of the list only what it says of the ASCII
    characters. *)
Definition decimal_digits : list (Z * Z) :=
  [(48, 57); (1632, 1641); (1776, 1785); (1984, 1993); (2406, 2415);
   (2534, 2543); (2662, 2671); (2790, 2799); (2918, 2927); (3046, 3055);
   (3174, 3183); (3302, 3311); (3430, 3439); (3558, 3567); (3664, 3673);
   (3792, 3801); (3872, 3881); (4160, 4169); (4240, 4249); (6112, 6121);
   (6160, 6169); (6470, 6479); (6608, 6617); (6784, 6793); (6800, 6809);
   (6992, 7001); (7088, 7097); (7232, 7241); (7248, 7257); (42528, 42537);
   (43216, 43225); (43264, 43273); (43472, 43481); (43504, 43513);
   (43600, 43609); (44016, 44025); (65296, 65305); (66720, 66729);
   (68912, 68921); (69734, 69743); (69872, 69881); (69942, 69951);
   (70096, 70105); (70384, 70393); (70736, 70745); (70864, 70873);
   (71248, 71257); (71360, 71369); (71472, 71481); (71904, 71913);
   (72016, 72025); (72784, 72793); (73040, 73049); (73120, 73129);
   (92768, 92777); (92864, 92873); (93008, 93017); (120782, 120831);
   (123200, 123209); (123632, 123641); (125264, 125273); (130032, 130041)].

Definition isdecimal (c : Z) : bool :=
  existsb (fun run => (fst run <=? c) && (c <=? snd run)) decimal_digits.

(** [str(z)] for a Python [int] *)
Definition repr_int (z : Z) : string := NilZero.string_of_int (Z.to_int z).

(** ** The result of a fetch

    Python builds a dict with the keys ['success'], ['rate'], ['currency'],
    ['source'] on success and ['success'], ['error'] on failure; an absent
    key is [None] here. *)
Record Rate : Type := mkRate {
  success : bool;
  rate : option string;
  currency : option string;
  source : option string;
  error : option string
}.

Definition failure (msg : string) : Rate :=
  {| success := false; rate := None; currency := None; source := None;
     error := Some msg |}.

(** ** The upstream endpoint

    [session.get(...)] either raises or yields a response with a status; the
    body is read (and may raise) only when the program asks for it. *)
Record response (B : Type) : Type := mkResponse {
  status : Z;
  body : result B
}.

Arguments mkResponse {B} status body.
Arguments status {B} r.
Arguments body {B} r.

Definition upstream (B : Type) : Type := result (response B).

(** The network as the program sees it: the reply to the k-th request, and
    the number of requests issued so far. *)
Record net (B : Type) : Type := mkNet {
  replies : nat -> upstream B;
  requests : nat
}.

Arguments mkNet {B} replies requests.
Arguments replies {B} n k.
Arguments requests {B} n.

(** [session.get(EXCHANGE_URL, headers=headers, timeout=30)] *)
Definition session_get {B : Type} (n : net B) : upstream B * net B :=
  (replies n (requests n),
   {| replies := replies n; requests := S (requests n) |}).

(** A network on which every request times out. *)
Definition timing_out {B : Type} : net B :=
  {| replies := fun _ => Raise TimeoutError; requests := 0 |}.

(** The two [except] clauses shared by both variants of [scrape_aud_rate]. *)
Definition handle_fetch (r : result Rate) : Rate :=
  match r with
  | Ok v => v
  | Raise TimeoutError => failure "Request timeout. Please try again later."
  | Raise (Error msg) => failure ("Error: " ++ msg)
  end.

(** The failure modes of a fetch, given what counts as a structural failure
    of a body that was received and decoded. *)
Inductive failure_mode {B : Type} (structural : B -> Prop) : upstream B -> Prop :=
| request_timeout :
    failure_mode structural (Raise TimeoutError)
| request_exception (msg : string) :
    failure_mode structural (Raise (Error msg))
| bad_status (r : response B) :
    status r <> 200 -> failure_mode structural (Ok r)
| body_exception (r : response B) (e : exn) :
    status r = 200 -> body r = Raise e -> failure_mode structural (Ok r)
| bad_structure (r : response B) (b : B) :
    status r = 200 -> body r = Ok b -> structural b ->
    failure_mode structural (Ok r).

(** A failure-tagged result: no rate, and a non-empty error message. *)
Definition failed (r : Rate) : Prop :=
  success r = false /\ rate r = None /\
  exists msg, error r = Some msg /\ msg <> EmptyString.

(** A failure-tagged result that carries the message [msg]. *)
Definition failed_with (r : Rate) (msg : string) : Prop :=
  success r = false /\ rate r = None /\ error r = Some msg.

(** The message each failure mode is reported with.  The variants differ
    in [status_text], the text before the status code, and in the
    messages of their structural failures. *)
Inductive reported {B : Type} (status_text : string)
    (structural : B -> string -> Prop) : upstream B -> string -> Prop :=
| timeout_reported :
    reported status_text structural (Raise TimeoutError)
             "Request timeout. Please try again later."
| exception_reported (msg : string) :
    reported status_text structural (Raise (Error msg)) ("Error: " ++ msg)
| status_reported (r : response B) :
    status r <> 200 ->
    reported status_text structural (Ok r)
             (status_text ++ repr_int (status r))
| body_timeout_reported (r : response B) :
    status r = 200 -> body r = Raise TimeoutError ->
    reported status_text structural (Ok r)
             "Request timeout. Please try again later."
| body_exception_reported (r : response B) (msg : string) :
    status r = 200 -> body r = Raise (Error msg) ->
    reported status_text structural (Ok r) ("Error: " ++ msg)
| structure_reported (r : response B) (b : B) (msg : string) :
    status r = 200 -> body r = Ok b -> structural b msg ->
    reported status_text structural (Ok r) msg.

(** ** Markup-scrape variant ([mb_exchange_bot_webgia.py]) *)
Module Webgia.

(** A row is the list of its [td] cells, each cell the text
    [get_text(strip=True)] returns; a table is the list of its [tr] rows. *)
Definition row : Type := list string.
Definition table : Type := list row.

(** What [soup.find('table')] finds on the page: [None] or the first table. *)
Definition page : Type := option table.

(** The character class [[\d,.]]: a decimal digit of any script, a comma
    (U+002C) or a full stop (U+002E). *)
Definition rate_char (c : Z) : bool :=
  isdecimal c || (c =? 44) || (c =? 46).

(** [re.sub(r'[^\d,.]', '', selling_rate)]: the characters of the class
    are kept, as they are encoded, and every other character is dropped. *)
Definition clean_rate (s : string) : string :=
  join (map snd (List.filter (fun ch => rate_char (fst ch)) (characters s))).

Definition artifact : string := "webgia.com".

(** The truth value of [selling_rate and selling_rate != 'webgia.com'] *)
Definition valid_rate (s : string) : bool :=
  negb (String.eqb s EmptyString) && negb (String.eqb s artifact).

(** The test that selects the AUD row: at least 6 cells and "AUD" in the
    upper-cased first cell. *)
Definition is_aud_row (cells : row) : bool :=
  (6 <=? length cells)%nat &&
  contains "AUD" (upper (nth 0 cells EmptyString)).

(** The [for row in rows:] loop; [Some r] is the [return] inside it. *)
Fixpoint scan_rows (rows : table) : option string :=
  match rows with
  | [] => None
  | cells :: rest =>
      if (6 <=? length cells)%nat then
        let currency_code := nth 0 cells EmptyString in
        if contains "AUD" (upper currency_code) then
          let selling_rate := clean_rate (nth 5 cells EmptyString) in
          if valid_rate selling_rate then Some selling_rate
          else scan_rows rest
        else scan_rows rest
      else scan_rows rest
  end.

Definition found (selling_rate : string) : Rate :=
  {| success := true; rate := Some selling_rate; currency := Some "AUD";
     source := None; error := None |}.

(** The part of [scrape_aud_rate] that runs on a parsed page. *)
Definition scrape_page (p : page) : Rate :=
  match p with
  | None => failure "Exchange rate table not found on page"
  | Some rows =>
      match scan_rows rows with
      | Some selling_rate => found selling_rate
      | None =>
          failure "AUD rate not found in the table. The website might have changed its structure."
      end
  end.

(** The body of the [try:] block. *)
Definition fetch_body (u : upstream page) : result Rate :=
  do r <- u;
  if status r =? 200 then
    do p <- body r;
    Ok (scrape_page p)
  else
    Ok (failure ("Failed to fetch page. HTTP Status: " ++ repr_int (status r))).

Definition scrape_aud_rate (n : net page) : Rate * net page :=
  let (u, n') := session_get n in
  (handle_fetch (fetch_body u), n').

(** A network that answers every request with HTTP 200 and page [p]. *)
Definition serving (p : page) : net page :=
  {| replies := fun _ => Ok (mkResponse 200 (Ok p)); requests := 0 |}.

Definition example_row : row :=
  ["AUD"; "Australian Dollar"; "X"; "X"; "X"; "16,500.50"; "X"].

Definition page_without_rate : table :=
  [ ["USD"; "US Dollar"; "25,000"; "25,100"; "25,400"; "25,450"];
    ["aud"; "Australian Dollar"; "-"; "-"; "-"; "n/a"] ].

(** Structural failures of a page: no table, or no AUD row whose 6th cell
    cleans to something other than the empty string and the artifact. *)
Inductive structural_failure : page -> Prop :=
| no_table : structural_failure None
| no_rate (rows : table) :
    (forall i cells, rows !! i = Some cells -> is_aud_row cells = true ->
       clean_rate (nth 5 cells EmptyString) = EmptyString \/
       clean_rate (nth 5 cells EmptyString) = artifact) ->
    structural_failure (Some rows).

(** The message of each structural failure. *)
Inductive structural_message : page -> string -> Prop :=
| no_table_message :
    structural_message None "Exchange rate table not found on page"
| no_rate_message (rows : table) :
    structural_failure (Some rows) ->
    structural_message (Some rows)
      "AUD rate not found in the table. The website might have changed its structure.".

End Webgia.

(** ** Structured-API variant ([mb_exchange_bot.py]) *)
Module Api.

(** The Python value [response.json()] decodes the body to.  JSON numbers
    are [int] or [float]; a [float] is an IEEE 754 binary64 value. *)
#[warnings="-register-all"]
Inductive pyval : Type :=
| PNone
| PBool (b : bool)
| PInt (z : Z)
| PFloat (f : spec_float)
| PStr (s : string)
| PList (items : list pyval)
| PDict (d : gmap string pyval).

Definition type_name (v : pyval) : string :=
  match v with
  | PNone => "NoneType"
  | PBool _ => "bool"
  | PInt _ => "int"
  | PFloat _ => "float"
  | PStr _ => "str"
  | PList _ => "list"
  | PDict _ => "dict"
  end.

(** [v.get(key, default)]: only a dict has the method. *)
Definition py_get (v : pyval) (key : string) (default : pyval) : result pyval :=
  match v with
  | PDict d => Ok (match d !! key with Some x => x | None => default end)
  | _ => Raise (Error ("'" ++ type_name v ++ "' object has no attribute 'get'"))
  end.

(** [v == s] for a string literal [s] *)
Definition eq_str (v : pyval) (s : string) : bool :=
  match v with
  | PStr t => String.eqb t s
  | _ => false
  end.

(** The truth value of [v] in [if v:] *)
Definition truthy (v : pyval) : bool :=
  match v with
  | PNone => false
  | PBool b => b
  | PInt z => negb (z =? 0)
  | PFloat (S754_zero _) => false
  | PFloat _ => true
  | PStr s => negb (String.eqb s EmptyString)
  | PList items => match items with [] => false | _ => true end
  | PDict d => negb (Nat.eqb (size d) 0)
  end.

(** [float(z)]: the nearest binary64 value, ties to even; Python raises
    [OverflowError] where IEEE rounding would give an infinity. *)
Definition to_float (z : Z) : result spec_float :=
  match binary_normalize 53 1024 z 0 false with
  | S754_infinity _ => Raise (Error "int too large to convert to float")
  | f => Ok f
  end.

(** The value [m * 2^e] in hundredths, rounded to the nearest integer,
    ties to even: what the precision [.2] of the format keeps. *)
Definition hundredths (m : positive) (e : Z) : Z :=
  if 0 <=? e then 100 * Z.pos m * 2 ^ e
  else
    let d := 2 ^ (- e) in
    let q := (100 * Z.pos m) / d in
    let r := (100 * Z.pos m) mod d in
    if (d <? 2 * r) || ((2 * r =? d) && Z.odd q) then q + 1 else q.

Definition digits (n : Z) : list ascii := list_ascii_of_string (repr_int n).

(** The [,] option: walking the integer digits from the right, a comma
    goes in front of every complete group of three that has a digit to
    its left.  [k] counts the digits of the group being filled. *)
Fixpoint group_acc (k : nat) (rev_digits acc : list ascii) : list ascii :=
  match rev_digits with
  | [] => acc
  | d :: rest =>
      if (k =? 3)%nat then group_acc 1 rest (d :: "," :: acc)%char
      else group_acc (S k) rest (d :: acc)
  end.

Definition two_digits (n : Z) : list ascii :=
  if n <? 10 then ("0"%char :: digits n) else digits n.

(** [q] hundredths printed as [d,ddd,ddd.dd] *)
Definition fixed2 (q : Z) : list ascii :=
  group_acc 0 (rev (digits (q / 100))) ("."%char :: two_digits (q mod 100)).

Definition sign_text (s : bool) : list ascii :=
  if s then ["-"%char] else [].

(** [f"{x:,.2f}"] for a float [x] *)
Definition format_float (f : spec_float) : string :=
  match f with
  | S754_nan => "nan"
  | S754_infinity s => string_of_list_ascii (sign_text s) ++ "inf"
  | S754_zero s => string_of_list_ascii (sign_text s ++ fixed2 0)%list
  | S754_finite s m e =>
      string_of_list_ascii (sign_text s ++ fixed2 (hundredths m e))%list
  end.

(** [f"{v:,.2f}"]: [int] and [bool] are converted with [float()] first;
    the other types reject the format code. *)
Definition format_2f (v : pyval) : result string :=
  match v with
  | PFloat f => Ok (format_float f)
  | PInt z => do f <- to_float z; Ok (format_float f)
  | PBool b => do f <- to_float (Z.b2z b); Ok (format_float f)
  | PStr _ => Raise (Error "Unknown format code 'f' for object of type 'str'")
  | _ =>
      Raise (Error ("unsupported format string passed to "
                    ++ type_name v ++ ".__format__"))
  end.

Definition found (formatted_rate : string) : Rate :=
  {| success := true; rate := Some formatted_rate; currency := Some "AUD";
     source := Some "Global Market Rate"; error := None |}.

Section Fetch.

(** Python's [str()] on a decoded JSON value, used to interpolate the
    ["error-type"] field into the error message. *)
Variable py_str : pyval -> string.

(** The part of [scrape_aud_rate] that runs on the decoded body. *)
Definition scrape_data (data : pyval) : result Rate :=
  do res <- py_get data "result" PNone;
  if eq_str res "success" then
    do rates <- py_get data "rates" (PDict ∅);
    do vnd_rate <- py_get rates "VND" PNone;
    if truthy vnd_rate then
      do formatted_rate <- format_2f vnd_rate;
      Ok (found formatted_rate)
    else Ok (failure "VND rate not found in API response")
  else
    do error_type <- py_get data "error-type" (PStr "Unknown error");
    Ok (failure ("API error: " ++ py_str error_type)).

(** The body of the [try:] block. *)
Definition fetch_body (u : upstream pyval) : result Rate :=
  do r <- u;
  if status r =? 200 then
    do data <- body r;
    scrape_data data
  else
    Ok (failure ("Failed to fetch rate. HTTP Status: " ++ repr_int (status r))).

Definition scrape_aud_rate (n : net pyval) : Rate * net pyval :=
  let (u, n') := session_get n in
  (handle_fetch (fetch_body u), n').

End Fetch.

(** A network that answers every request with HTTP 200 and body [data]. *)
Definition serving (data : pyval) : net pyval :=
  {| replies := fun _ => Ok (mkResponse 200 (Ok data)); requests := 0 |}.

(** The body [{"result": "success", "rates": {"VND": v}}] *)
Definition rates_body (v : pyval) : pyval :=
  PDict (<["result" := PStr "success"]>
         (<["rates" := PDict (<["VND" := v]> ∅)]> ∅)).

(** A JSON number: [int] or [float], with the double it is formatted as. *)
Definition number (v : pyval) : option (result spec_float) :=
  match v with
  | PInt z => Some (to_float z)
  | PFloat f => Some (Ok f)
  | _ => None
  end.

Definition finite (f : spec_float) : bool :=
  match f with
  | S754_zero _ | S754_finite _ _ _ => true
  | _ => false
  end.

(** The shape [-?d{1,3}(,ddd)*.dd] of a text: an optional sign, the
    integer digits in groups of three separated by commas, a dot and
    exactly two decimals. *)
Fixpoint groups_then_decimals (l : list ascii) : bool :=
  match l with
  | ["."; a; b]%char => is_digit a && is_digit b
  | ("," :: a :: b :: c :: rest)%char =>
      is_digit a && is_digit b && is_digit c && groups_then_decimals rest
  | _ => false
  end.

Definition leading_group (l : list ascii) : bool :=
  match l with
  | a :: l1 =>
      is_digit a &&
      (groups_then_decimals l1 ||
       match l1 with
       | b :: l2 =>
           is_digit b &&
           (groups_then_decimals l2 ||
            match l2 with
            | c :: l3 => is_digit c && groups_then_decimals l3
            | [] => false
            end)
       | [] => false
       end)
  | [] => false
  end.

Definition strip_sign (l : list ascii) : list ascii :=
  match l with
  | c :: l' => if Ascii.eqb c "-" then l' else l
  | [] => []
  end.

Definition two_decimals_grouped (s : string) : bool :=
  leading_group (strip_sign (list_ascii_of_string s)).

(** The accumulator of [group_acc]: [k] digits of the group being filled,
    in front of complete groups and the decimals. *)
Definition shaped (k : nat) (acc : list ascii) : Prop :=
  exists ds t, acc = (ds ++ t)%list /\ length ds = k /\
               Forall (fun c => is_digit c = true) ds /\
               groups_then_decimals t = true.

(** Structural failures of a decoded body: the success indicator is
    absent or is not "success", or the rates mapping (absent: empty) has
    no "VND" key. *)
Inductive structural_failure : pyval -> Prop :=
| no_success_indicator (d : gmap string pyval) :
    (forall v, d !! "result" = Some v -> eq_str v "success" = false) ->
    structural_failure (PDict d)
| no_rates (d : gmap string pyval) :
    d !! "result" = Some (PStr "success") ->
    d !! "rates" = None ->
    structural_failure (PDict d)
| no_currency (d rates : gmap string pyval) :
    d !! "result" = Some (PStr "success") ->
    d !! "rates" = Some (PDict rates) ->
    rates !! "VND" = None ->
    structural_failure (PDict d).

(** The message of each structural failure; [py_str] is [str()] as it
    formats the value of "error-type". *)
Inductive structural_message (py_str : pyval -> string)
  : pyval -> string -> Prop :=
| no_success_indicator_message (d : gmap string pyval) :
    (forall v, d !! "result" = Some v -> eq_str v "success" = false) ->
    structural_message py_str (PDict d)
      ("API error: " ++
       py_str (match d !! "error-type" with
               | Some x => x
               | None => PStr "Unknown error"
               end))
| no_rates_message (d : gmap string pyval) :
    d !! "result" = Some (PStr "success") ->
    d !! "rates" = None ->
    structural_message py_str (PDict d) "VND rate not found in API response"
| no_currency_message (d rates : gmap string pyval) :
    d !! "result" = Some (PStr "success") ->
    d !! "rates" = Some (PDict rates) ->
    rates !! "VND" = None ->
    structural_message py_str (PDict d) "VND rate not found in API response".

End Api.

(** ** The JSON text of the subscriber file

    [json.load] as a tokenizer followed by a parser.  The decoder accepts
    what Python's [json] module accepts: the standard grammar, with
    whitespace between tokens, and the literals [NaN], [Infinity] and
    [-Infinity].  Strings and non-integer numbers are kept as they are
    written; the subscriber store never looks inside them.  Integers are
    unbounded: the interpreter's cap on the number of digits of an integer
    literal and its recursion limit are not modelled. *)
Module Json.

Abbreviation chars := list_ascii_of_string.

Inductive token : Type :=
| LBracket | RBracket | LBrace | RBrace | Comma | Colon
| TInt (z : Z)
| TReal (raw : list ascii)
| TStr (raw : list ascii)
| TNull | TTrue | TFalse.

#[warnings="-register-all"]
Inductive json : Type :=
| JNull
| JBool (b : bool)
| JInt (z : Z)
| JReal (raw : list ascii)
| JStr (raw : list ascii)
| JArr (items : list json)
| JObj (members : list (list ascii * json)).

Definition quote : ascii := "034"%char.
Definition backslash : ascii := "092"%char.

Definition is_ws (c : ascii) : bool :=
  Ascii.eqb c " " || Ascii.eqb c "009" || Ascii.eqb c "010" || Ascii.eqb c "013".

Definition is_hex (c : ascii) : bool :=
  let n := N_of_ascii c in
  is_digit c || ((65 <=? n) && (n <=? 70))%N || ((97 <=? n) && (n <=? 102))%N.

Definition is_control (c : ascii) : bool := (N_of_ascii c <? 32)%N.

(** The longest prefix of digits, and what follows it. *)
Fixpoint span_digits (s : list ascii) : list ascii * list ascii :=
  match s with
  | c :: rest =>
      if is_digit c then
        let (ds, r) := span_digits rest in (c :: ds, r)
      else ([], s)
  | [] => ([], [])
  end.

Fixpoint strip_prefix (p s : list ascii) : option (list ascii) :=
  match p with
  | [] => Some s
  | c :: p' =>
      match s with
      | d :: s' => if Ascii.eqb c d then strip_prefix p' s' else None
      | [] => None
      end
  end.

(** [0|[1-9]\d*] *)
Definition lex_int_part (s : list ascii) : option (list ascii * list ascii) :=
  match s with
  | c :: rest =>
      if Ascii.eqb c "0" then Some ([c], rest)
      else if is_digit c then
        let (ds, r) := span_digits rest in Some (c :: ds, r)
      else None
  | [] => None
  end.

(** [(\.\d+)?] *)
Definition lex_frac (s : list ascii) : list ascii * list ascii :=
  match s with
  | c :: rest =>
      if Ascii.eqb c "." then
        match span_digits rest with
        | ([], _) => ([], s)
        | (ds, r) => (c :: ds, r)
        end
      else ([], s)
  | [] => ([], s)
  end.

(** [([eE][-+]?\d+)?] *)
Definition lex_exp (s : list ascii) : list ascii * list ascii :=
  match s with
  | c :: rest =>
      if Ascii.eqb c "e" || Ascii.eqb c "E" then
        let (sgn, r1) :=
          match rest with
          | x :: r => if Ascii.eqb x "+" || Ascii.eqb x "-"
                      then ([x], r) else ([], rest)
          | [] => ([], rest)
          end in
        match span_digits r1 with
        | ([], _) => ([], s)
        | (ds, r2) => (c :: sgn ++ ds, r2)%list
        end
      else ([], s)
  | [] => ([], s)
  end.

(** [int(text)] for the text of an integer literal, sign included *)
Definition int_of_text (text : list ascii) : option Z :=
  option_map Z.of_int (NilZero.int_of_string (string_of_list_ascii text)).

(** A number, or [-Infinity], at the head of [s]. *)
Definition lex_number (s : list ascii) : option (token * list ascii) :=
  let (sgn, s1) :=
    match s with
    | c :: r => if Ascii.eqb c "-" then ([c], r) else ([], s)
    | [] => ([], s)
    end in
  match lex_int_part s1 with
  | Some (ds, s2) =>
      let (frac, s3) := lex_frac s2 in
      let (ex, s4) := lex_exp s3 in
      match (frac ++ ex)%list with
      | [] =>
          match int_of_text (sgn ++ ds)%list with
          | Some z => Some (TInt z, s4)
          | None => None
          end
      | _ => Some (TReal (sgn ++ ds ++ frac ++ ex)%list, s4)
      end
  | None =>
      match sgn with
      | [] => None
      | _ =>
          match strip_prefix (list_ascii_of_string "Infinity") s1 with
          | Some r => Some (TReal (list_ascii_of_string "-Infinity"), r)
          | None => None
          end
      end
  end.

Definition is_simple_escape (c : ascii) : bool :=
  Ascii.eqb c quote || Ascii.eqb c backslash || Ascii.eqb c "/" ||
  Ascii.eqb c "b" || Ascii.eqb c "f" || Ascii.eqb c "n" ||
  Ascii.eqb c "r" || Ascii.eqb c "t".

Definition prepend (cs : list ascii) (r : option (list ascii * list ascii))
  : option (list ascii * list ascii) :=
  match r with
  | Some (raw, rest) => Some ((cs ++ raw)%list, rest)
  | None => None
  end.

(** The characters of a string up to its closing quote. *)
Fixpoint lex_string (s : list ascii) : option (list ascii * list ascii) :=
  match s with
  | [] => None
  | c :: rest =>
      if Ascii.eqb c quote then Some ([], rest)
      else if Ascii.eqb c backslash then
        match rest with
        | e :: rest1 =>
            if is_simple_escape e then prepend [c; e] (lex_string rest1)
            else if Ascii.eqb e "u" then
              match rest1 with
              | h1 :: h2 :: h3 :: h4 :: rest2 =>
                  if is_hex h1 && is_hex h2 && is_hex h3 && is_hex h4
                  then prepend [c; e; h1; h2; h3; h4] (lex_string rest2)
                  else None
              | _ => None
              end
            else None
        | [] => None
        end
      else if is_control c then None
      else prepend [c] (lex_string rest)
  end.

Definition lex_literal (s : list ascii) : option (token * list ascii) :=
  match strip_prefix (list_ascii_of_string "null") s with
  | Some r => Some (TNull, r)
  | None =>
  match strip_prefix (list_ascii_of_string "true") s with
  | Some r => Some (TTrue, r)
  | None =>
  match strip_prefix (list_ascii_of_string "false") s with
  | Some r => Some (TFalse, r)
  | None =>
  match strip_prefix (list_ascii_of_string "NaN") s with
  | Some r => Some (TReal (list_ascii_of_string "NaN"), r)
  | None =>
  match strip_prefix (list_ascii_of_string "Infinity") s with
  | Some r => Some (TReal (list_ascii_of_string "Infinity"), r)
  | None => None
  end end end end end.

Definition punctuation (c : ascii) : option token :=
  if Ascii.eqb c "[" then Some LBracket
  else if Ascii.eqb c "]" then Some RBracket
  else if Ascii.eqb c "{" then Some LBrace
  else if Ascii.eqb c "}" then Some RBrace
  else if Ascii.eqb c "," then Some Comma
  else if Ascii.eqb c ":" then Some Colon
  else None.

Definition push (t : token) (r : option (list token)) : option (list token) :=
  option_map (cons t) r.

(** Every step consumes at least one character: [length s] is enough fuel. *)
Fixpoint lex (fuel : nat) (s : list ascii) : option (list token) :=
  match s with
  | [] => Some []
  | c :: rest =>
      match fuel with
      | O => None
      | S fuel =>
          if is_ws c then lex fuel rest
          else
            match punctuation c with
            | Some t => push t (lex fuel rest)
            | None =>
                if Ascii.eqb c quote then
                  match lex_string rest with
                  | Some (raw, rest') => push (TStr raw) (lex fuel rest')
                  | None => None
                  end
                else if Ascii.eqb c "-" || is_digit c then
                  match lex_number s with
                  | Some (t, rest') => push t (lex fuel rest')
                  | None => None
                  end
                else
                  match lex_literal s with
                  | Some (t, rest') => push t (lex fuel rest')
                  | None => None
                  end
            end
      end
  end.

(** One value at the head of the tokens; [parse_items] reads
    [value (, value)* ]] and [parse_members] reads
    [string : value (, string : value)* }]. *)
Fixpoint parse_value (fuel : nat) (ts : list token)
  : option (json * list token) :=
  match fuel with
  | O => None
  | S fuel =>
      match ts with
      | TNull :: r => Some (JNull, r)
      | TTrue :: r => Some (JBool true, r)
      | TFalse :: r => Some (JBool false, r)
      | TInt z :: r => Some (JInt z, r)
      | TReal raw :: r => Some (JReal raw, r)
      | TStr raw :: r => Some (JStr raw, r)
      | LBracket :: RBracket :: r => Some (JArr [], r)
      | LBracket :: r =>
          match parse_items fuel r with
          | Some (items, r') => Some (JArr items, r')
          | None => None
          end
      | LBrace :: RBrace :: r => Some (JObj [], r)
      | LBrace :: r =>
          match parse_members fuel r with
          | Some (members, r') => Some (JObj members, r')
          | None => None
          end
      | _ => None
      end
  end
with parse_items (fuel : nat) (ts : list token)
  : option (list json * list token) :=
  match fuel with
  | O => None
  | S fuel =>
      match parse_value fuel ts with
      | Some (v, RBracket :: r) => Some ([v], r)
      | Some (v, Comma :: r) =>
          match parse_items fuel r with
          | Some (vs, r') => Some (v :: vs, r')
          | None => None
          end
      | _ => None
      end
  end
with parse_members (fuel : nat) (ts : list token)
  : option (list (list ascii * json) * list token) :=
  match fuel with
  | O => None
  | S fuel =>
      match ts with
      | TStr key :: Colon :: r =>
          match parse_value fuel r with
          | Some (v, RBrace :: r') => Some ([(key, v)], r')
          | Some (v, Comma :: r') =>
              match parse_members fuel r' with
              | Some (ms, r'') => Some ((key, v) :: ms, r'')
              | None => None
              end
          | _ => None
          end
      | _ => None
      end
  end.

(** A separator: what follows an integer in the text of an array. *)
Definition is_sep (c : ascii) : Prop := c = ","%char \/ c = "]"%char.

(** The exception [json.load] raises on a text it rejects (the position
    carried by its message is left out). *)
Definition JSONDecodeError : exn := Error "JSONDecodeError".

(** [json.loads(text)] *)
Definition json_loads (text : string) : result json :=
  let s := list_ascii_of_string text in
  match lex (length s) s with
  | Some ts =>
      match parse_value (2 * length ts + 2) ts with
      | Some (v, []) => Ok v
      | _ => Raise JSONDecodeError
      end
  | None => Raise JSONDecodeError
  end.

(** The decoder run with a given fuel for both passes. *)
Definition decode_with (fuel : nat) (text : string) : result json :=
  match lex fuel (list_ascii_of_string text) with
  | Some ts =>
      match parse_value fuel ts with
      | Some (v, []) => Ok v
      | _ => Raise JSONDecodeError
      end
  | None => Raise JSONDecodeError
  end.

(** [json.dumps(ids)] for a list of [int]: ["[1, 2, 3]"] *)
Definition json_dumps (ids : list Z) : string :=
  "[" ++ String.concat ", " (map repr_int ids) ++ "]".

(** The tokens of the text [json_dumps] writes between the brackets. *)
Fixpoint id_tokens (ids : list Z) : list token :=
  match ids with
  | [] => []
  | [z] => [TInt z]
  | z :: rest => TInt z :: Comma :: id_tokens rest
  end.

End Json.

(** ** The subscriber store and the daily broadcast (same code in both
    variants) *)
Module Bot.
Import Json.

(** The text sent to a subscriber is an f-string of the fetch result and
    of the current time; it is kept as that pair. *)
Definition message : Type := (Rate * string)%type.

(** The records the program writes to its log that concern the store and
    the broadcast. *)
Inductive log_record : Type :=
| Loaded (count : nat)
| ErrorLoading (e : exn)
| Saved (count : nat)
| ErrorSaving (e : exn)
| UserSubscribed (user_id : Z) (user_name : string)
| UserUnsubscribed (user_id : Z) (user_name : string)
| NoSubscribedUsers
| SendingDailyRate (count : nat)
| FailedToSend (user_id : Z) (e : exn)
| DailyRateSent (success_count failed_count : nat).

(** Where a fault of the file system strikes.  [AtOpen]: [open()] itself
    raises, and the file is not touched.  [AfterOpen written]: the file is
    opened, which creates or truncates it when it is opened for writing,
    and a later read, write, flush or close raises; of the text being
    written, the first [written] characters have reached the file. *)
Inductive fault_point : Type :=
| AtOpen
| AfterOpen (written : nat).

(** The state of the process and of what it touches.
    [subscribed_users] is the module-level set; [subscribers_file] is the
    text of [subscribers.json], [None] when the file does not exist;
    [io_fault] is the exception raised when the file system is at fault,
    and [io_point] is where it is raised; [calls] lists the chat ids
    [send_message] was called with and [outbox] the messages that were
    delivered. *)
Record world : Type := mkWorld {
  subscribed_users : gset Z;
  subscribers_file : option string;
  io_fault : option exn;
  io_point : fault_point;
  log : list log_record;
  calls : list Z;
  outbox : list (Z * message)
}.

Definition set_users (s : gset Z) (w : world) : world :=
  {| subscribed_users := s; subscribers_file := subscribers_file w;
     io_fault := io_fault w; io_point := io_point w;
     log := log w; calls := calls w;
     outbox := outbox w |}.

Definition set_file (text : string) (w : world) : world :=
  {| subscribed_users := subscribed_users w; subscribers_file := Some text;
     io_fault := io_fault w; io_point := io_point w;
     log := log w; calls := calls w;
     outbox := outbox w |}.

Definition add_log (r : log_record) (w : world) : world :=
  {| subscribed_users := subscribed_users w;
     subscribers_file := subscribers_file w;
     io_fault := io_fault w; io_point := io_point w;
     log := (log w ++ [r])%list; calls := calls w;
     outbox := outbox w |}.

Definition add_call (user_id : Z) (w : world) : world :=
  {| subscribed_users := subscribed_users w;
     subscribers_file := subscribers_file w;
     io_fault := io_fault w; io_point := io_point w;
     log := log w;
     calls := (calls w ++ [user_id])%list; outbox := outbox w |}.

Definition add_sent (user_id : Z) (m : message) (w : world) : world :=
  {| subscribed_users := subscribed_users w;
     subscribers_file := subscribers_file w;
     io_fault := io_fault w; io_point := io_point w;
     log := log w; calls := calls w;
     outbox := (outbox w ++ [(user_id, m)])%list |}.

(** [open(SUBSCRIBERS_FILE, 'r')] and the reading of the file: a fault at
    either point raises out of the [with] block, and the file stays as it
    is. *)
Definition open_file (w : world) : result unit :=
  match io_fault w with
  | Some e => Raise e
  | None => Ok tt
  end.

(** What [set(json.load(f))] evaluates to on a decoded value: a set of
    integer identifiers, an exception, or a set with elements that are not
    integers.  The last kind is never written by [save_subscribers] and
    lies outside the data model of the store. *)
Inductive set_outcome : Type :=
| Ids (ids : list Z)
| Foreign
| Fails (e : exn).

(** The Python type of a decoded value. *)
Definition type_name (v : json) : string :=
  match v with
  | JNull => "NoneType"
  | JBool _ => "bool"
  | JInt _ => "int"
  | JReal _ => "float"
  | JStr _ => "str"
  | JArr _ => "list"
  | JObj _ => "dict"
  end.

Definition unhashable (v : json) : bool :=
  match v with
  | JArr _ | JObj _ => true
  | _ => false
  end.

Fixpoint all_ints (items : list json) : option (list Z) :=
  match items with
  | [] => Some []
  | JInt z :: rest => option_map (cons z) (all_ints rest)
  | _ :: _ => None
  end.

(** [set(v)]: a list is hashed element by element, a dict gives its keys
    and a string its characters; nothing else can be iterated. *)
Definition py_set (v : json) : set_outcome :=
  match v with
  | JArr items =>
      match List.find unhashable items with
      | Some x => Fails (Error ("unhashable type: '" ++ type_name x ++ "'"))
      | None =>
          match all_ints items with
          | Some ids => Ids ids
          | None => Foreign
          end
      end
  | JObj [] | JStr [] => Ids []
  | JObj _ | JStr _ => Foreign
  | JNull | JBool _ | JInt _ | JReal _ =>
      Fails (Error ("'" ++ type_name v ++ "' object is not iterable"))
  end.

(** The [try:] block of [load_subscribers]; [Ok None] stands for a loaded
    set that is outside the model. *)
Definition load_body (w : world) : result (option world) :=
  match subscribers_file w with
  | None => Ok (Some w)
  | Some text =>
      do _ <- open_file w;
      do v <- json_loads text;
      match py_set v with
      | Ids ids =>
          let users : gset Z := list_to_set ids in
          Ok (Some (add_log (Loaded (size users)) (set_users users w)))
      | Foreign => Ok None
      | Fails e => Raise e
      end
  end.

Definition load_subscribers (w : world) : option world :=
  match load_body w with
  | Ok r => r
  | Raise e => Some (set_users ∅ (add_log (ErrorLoading e) w))
  end.

(** Which of its two replies a command handler sends (the sending itself
    is not modelled). *)
Inductive reply : Type :=
| AlreadySubscribed
| SuccessfullySubscribed
| SuccessfullyUnsubscribed
| NotSubscribed.

Section Iteration.

(** The order in which Python iterates over a set.  The language leaves
    it unspecified; the properties below assume no more than that it
    enumerates the elements once each. *)
Variable order : gset Z -> list Z.

(** The [try:] block of [save_subscribers], with the world it leaves.
    [open(SUBSCRIBERS_FILE, 'w')] raises, or it truncates the file; then
    [json.dump], or the flush and close at the end of the [with] block,
    raises with a part of the text written, or the whole text is written
    and the save is logged. *)
Definition save_body (w : world) : result unit * world :=
  let text := json_dumps (order (subscribed_users w)) in
  match io_fault w with
  | Some e =>
      match io_point w with
      | AtOpen => (Raise e, w)
      | AfterOpen written => (Raise e, set_file (substring 0 written text) w)
      end
  | None =>
      (Ok tt, add_log (Saved (size (subscribed_users w))) (set_file text w))
  end.

Definition save_subscribers (w : world) : world :=
  match save_body w with
  | (Ok _, w') => w'
  | (Raise e, w') => add_log (ErrorSaving e) w'
  end.

Definition subscribe_command (user_id : Z) (user_name : string) (w : world)
  : reply * world :=
  if decide (user_id ∈ subscribed_users w) then (AlreadySubscribed, w)
  else
    let w1 := set_users (subscribed_users w ∪ {[user_id]}) w in
    let w2 := save_subscribers w1 in
    (SuccessfullySubscribed, add_log (UserSubscribed user_id user_name) w2).

Definition unsubscribe_command (user_id : Z) (user_name : string) (w : world)
  : reply * world :=
  if decide (user_id ∈ subscribed_users w) then
    let w1 := set_users (subscribed_users w ∖ {[user_id]}) w in
    let w2 := save_subscribers w1 in
    (SuccessfullyUnsubscribed,
     add_log (UserUnsubscribed user_id user_name) w2)
  else (NotSubscribed, w).

(** The store operations of the specification: [add] and [remove] answer
    whether the set changed. *)
Definition add (user_id : Z) (user_name : string) (w : world)
  : bool * world :=
  match subscribe_command user_id user_name w with
  | (SuccessfullySubscribed, w') => (true, w')
  | (_, w') => (false, w')
  end.

Definition remove (user_id : Z) (user_name : string) (w : world)
  : bool * world :=
  match unsubscribe_command user_id user_name w with
  | (SuccessfullyUnsubscribed, w') => (true, w')
  | (_, w') => (false, w')
  end.

(** *** The broadcast *)

Context {N : Type}.

(** The variant's [scrape_aud_rate]. *)
Variable scrape_aud_rate : N -> Rate * N.

(** [deliver user_id] is the exception [send_message] raises for this
    recipient, [None] when the message is delivered. *)
Variable deliver : Z -> option exn.

(** What command handlers that run while the fetch is awaited do to the
    state. *)
Variable during_fetch : world -> world.

(** [datetime.now(...).strftime(...)] *)
Variable current_time : string.

(** [context.bot.send_message(chat_id=user_id, ...)] *)
Definition send_message (user_id : Z) (m : message) (w : world)
  : result unit * world :=
  let w1 := add_call user_id w in
  match deliver user_id with
  | None => (Ok tt, add_sent user_id m w1)
  | Some e => (Raise e, w1)
  end.

(** The [for user_id in subscribed_users.copy():] loop over the copy. *)
Fixpoint send_loop (snapshot : list Z) (m : message)
    (success_count failed_count : nat) (w : world) : nat * nat * world :=
  match snapshot with
  | [] => (success_count, failed_count, w)
  | user_id :: rest =>
      match send_message user_id m w with
      | (Ok _, w1) => send_loop rest m (S success_count) failed_count w1
      | (Raise e, w1) =>
          send_loop rest m success_count (S failed_count)
                    (add_log (FailedToSend user_id e) w1)
      end
  end.

(** The world at the moment the copy of the set is taken. *)
Definition at_snapshot (w : world) : world :=
  during_fetch
    (add_log (SendingDailyRate (size (subscribed_users w))) w).

(** [send_daily_rate]; the result is the tally of the final log record,
    [None] when the function returns early. *)
Definition send_daily_rate (n : N) (w : world)
  : option (nat * nat) * world * N :=
  if decide (subscribed_users w = ∅) then
    (None, add_log NoSubscribedUsers w, n)
  else
    let (result, n') := scrape_aud_rate n in
    let w1 := at_snapshot w in
    let m : message := (result, current_time) in
    let snapshot := order (subscribed_users w1) in
    let '(success_count, failed_count, w2) := send_loop snapshot m 0 0 w1 in
    (Some (success_count, failed_count),
     add_log (DailyRateSent success_count failed_count) w2, n').

End Iteration.

(** The broadcast operation of the specification on a given copy of the
    set: the tally, and the world after the loop. *)
Definition broadcast (deliver : Z -> option exn) (m : message)
    (snapshot : list Z) (w : world) : nat * nat * world :=
  send_loop deliver snapshot m 0 0 w.

Definition delivered (deliver : Z -> option exn) (user_id : Z) : bool :=
  match deliver user_id with
  | None => true
  | Some _ => false
  end.

(** A fresh process: nothing in memory, the given file on disk. *)
Definition start (file : option string) : world :=
  {| subscribed_users := ∅; subscribers_file := file; io_fault := None;
     io_point := AtOpen;
     log := []; calls := []; outbox := [] |}.

(** Example data: a store with three subscribers, one with a subscriber
    and a truncated file, and a recipient who blocked the bot. *)
Definition three_users : world := set_users {[3; 1; 2]} (start None).

Definition truncated_file : world :=
  set_users {[1]} (start (Some "[1, 2")).

Definition blocked_by (bad : Z) : Z -> option exn :=
  fun user_id =>
    if user_id =? bad then Some (Error "Forbidden: bot was blocked by the user")
    else None.

(** The set held by durable storage: what a fresh process loads from the
    file as it is. *)
Definition persisted (w : world) : option (gset Z) :=
  option_map subscribed_users (load_subscribers (start (subscribers_file w))).

(** The ways loading an existing file fails with exception [e]: the file
    cannot be opened or read, its text is not JSON, or the decoded value
    cannot be turned into a set. *)
Inductive load_fault (w : world) (e : exn) : Prop :=
| unreadable (text : string) :
    subscribers_file w = Some text -> io_fault w = Some e ->
    load_fault w e
| unparseable (text : string) :
    subscribers_file w = Some text -> io_fault w = None ->
    json_loads text = Raise e ->
    load_fault w e
| not_a_collection (text : string) (v : json) :
    subscribers_file w = Some text -> io_fault w = None ->
    json_loads text = Ok v -> py_set v = Fails e ->
    load_fault w e.

End Bot.

(** ** The command handlers ([rate_command]) and the text of the messages *)
Module Handlers.
Import Bot.

Definition nl : string := String "010"%char EmptyString.

(** [result[key]] on the dict a fetch returns: a missing key raises
    [KeyError]. *)
Definition get_key (field : option string) (key : string) : result string :=
  match field with
  | Some v => Ok v
  | None => Raise (Error ("'" ++ key ++ "'"))
  end.

(** The literal parts of the f-strings in which the two files differ: the
    first reply of [rate_command], and what stands before the rate, between
    the rate and the time, and after the time in the message of
    [rate_command] and in the message of [send_daily_rate]. *)
Record texts : Type := mkTexts {
  fetching : string;
  rate_head : string;
  rate_mid : string;
  rate_tail : string;
  daily_head : string;
  daily_mid : string;
  daily_tail : string
}.

(** The error messages are the same in both files. *)
Definition error_head : string := "❌ <b>Error Fetching Rate</b>" ++ nl ++ nl.
Definition error_tail : string := nl ++ nl ++ "Please try again later.".
Definition daily_error_head : string :=
  "⚠️ <b>Daily Rate Update - Error</b>" ++ nl ++ nl ++ "Unable to fetch today's rate:" ++ nl.
Definition daily_error_tail : string :=
  nl ++ nl ++ "Use /rate to try again manually.".

(** [mb_exchange_bot.py] *)
Definition api_texts : texts :=
  {| fetching := "⏳ Fetching current AUD to VND rate...";
     rate_head :=
       "💱 <b>AUD to VND Exchange Rate</b>" ++ nl ++ nl ++ "🇦🇺 Currency: <b>AUD → VND</b> 🇻🇳" ++ nl ++ "📊 Current Market Rate:" ++ nl ++ "<b>";
     rate_mid := " VND</b>" ++ nl ++ nl ++ "🕐 Updated: ";
     rate_tail :=
       nl ++ "📍 Source: Global Market Data" ++ nl ++ nl ++ "<i>Note: Bank rates (like MB Bank) may differ slightly from market rates.</i>";
     daily_head :=
       "🌅 <b>Daily Exchange Rate Update</b>" ++ nl ++ nl ++ "💱 AUD → VND" ++ nl ++ "📊 Current Market Rate:" ++ nl ++ "<b>";
     daily_mid := " VND</b>" ++ nl ++ nl ++ "🕐 ";
     daily_tail :=
       " (Vietnam Time)" ++ nl ++ "📍 Source: Global Market Data" ++ nl ++ nl ++ "💡 Use /rate to check anytime!" |}.

(** [mb_exchange_bot_webgia.py] *)
Definition webgia_texts : texts :=
  {| fetching := "⏳ Fetching current AUD to VND rate from MB Bank...";
     rate_head :=
       "💱 <b>MB Bank Exchange Rate</b>" ++ nl ++ nl ++ "🇦🇺 Currency: <b>AUD → VND</b> 🇻🇳" ++ nl ++ "📊 Rate (Bán ra - Chuyển khoản):" ++ nl ++ "<b>";
     rate_mid := " VND</b>" ++ nl ++ nl ++ "🕐 Updated: ";
     rate_tail :=
       nl ++ "📍 Source: MB Bank via WebGia.com";
     daily_head :=
       "🌅 <b>Daily Exchange Rate Update</b>" ++ nl ++ nl ++ "💱 MB Bank - AUD → VND" ++ nl ++ "📊 Rate (Bán ra - Chuyển khoản):" ++ nl ++ "<b>";
     daily_mid := " VND</b>" ++ nl ++ nl ++ "🕐 ";
     daily_tail :=
       " (Vietnam Time)" ++ nl ++ "📍 Source: MB Bank" ++ nl ++ nl ++ "💡 Use /rate to check anytime!" |}.

Section Variant.

Variable t : texts.
Context {N : Type}.
Variable scrape_aud_rate : N -> Rate * N.

(** The [message = (...)] of [rate_command]. *)
Definition rate_message : Rate -> string -> result string :=
  fun result current_time =>
  if success result then
    do r <- get_key (rate result) "rate";
    Ok (rate_head t ++ r ++ rate_mid t ++ current_time ++ rate_tail t)
  else
    do e <- get_key (error result) "error";
    Ok (error_head ++ e ++ error_tail).

(** The [message = (...)] of [send_daily_rate], from the pair the broadcast
    carries. *)
Definition daily_message (m : message) : result string :=
  let (result, current_time) := m in
  if success result then
    do r <- get_key (rate result) "rate";
    Ok (daily_head t ++ r ++ daily_mid t ++ current_time ++ daily_tail t)
  else
    do e <- get_key (error result) "error";
    Ok (daily_error_head ++ e ++ daily_error_tail).

(** [update.message.reply_text(text, ...)]: [reply_text k text] is the
    exception the k-th reply of the handler raises when it is given [text]
    (the network fails, the chat is gone, Telegram rejects the markup of
    the text), [None] when the reply is delivered. *)
Variable reply_text : nat -> string -> option exn.

(** [rate_command]: the replies that were delivered, in order, whether the
    handler returned or raised, and the network after it.  The handler
    catches nothing: an exception of a reply ends it. *)
Definition rate_command (current_time : string) (n : N)
  : list string * result unit * N :=
  match reply_text 0 (fetching t) with
  | Some e => ([], Raise e, n)
  | None =>
      let (result, n') := scrape_aud_rate n in
      match rate_message result current_time with
      | Raise e => ([fetching t], Raise e, n')
      | Ok m =>
          match reply_text 1 m with
          | Some e => ([fetching t], Raise e, n')
          | None => ([fetching t; m], Ok tt, n')
          end
      end
  end.

End Variant.

(** Replies that are all delivered, and replies of which Telegram rejects
    the texts that hold [tag], which is not a tag of its HTML. *)
Definition delivered_replies : nat -> string -> option exn :=
  fun _ _ => None.

Definition rejecting (tag : string) : nat -> string -> option exn :=
  fun _ text =>
    if contains tag text
    then Some (Error "Can't parse entities: unsupported start tag")
    else None.

(** [str(v)] for [None], a [bool], an [int] and a [str].  The text of a
    [float], a [list] or a [dict] is not modelled: the name of the type
    stands in for it, and the examples do not apply it to such values. *)
Definition text_of (v : Api.pyval) : string :=
  match v with
  | Api.PNone => "None"
  | Api.PBool true => "True"
  | Api.PBool false => "False"
  | Api.PInt z => repr_int z
  | Api.PStr s => s
  | _ => Api.type_name v
  end.

(** A result a consumer can read: the key it looks up is there. *)
Definition readable (r : Rate) : Prop :=
  if success r
  then (exists x, rate r = Some x) /\ error r = None
  else (exists msg, error r = Some msg /\ msg <> EmptyString) /\ rate r = None.

(** What a message built from a result shows of it: the rate and the time,
    or the error text. *)
Definition shows (r : Rate) (current_time m : string) : Prop :=
  if success r
  then exists x, rate r = Some x /\ contains x m = true /\
                 contains current_time m = true
  else exists e, error r = Some e /\ contains e m = true.

End Handlers.

(** ** Sequences of subscribe and unsubscribe commands *)
Module Session.
Import Bot.

Inductive command : Type :=
| Subscribe (user_id : Z) (user_name : string)
| Unsubscribe (user_id : Z) (user_name : string).

Definition user_of (c : command) : Z :=
  match c with
  | Subscribe user_id _ | Unsubscribe user_id _ => user_id
  end.

(** What a command asks of the set. *)
Definition effect (s : gset Z) (c : command) : gset Z :=
  match c with
  | Subscribe user_id _ => s ∪ {[user_id]}
  | Unsubscribe user_id _ => s ∖ {[user_id]}
  end.

Section Run.

Variable order : gset Z -> list Z.

(** The handler the dispatcher calls for a command. *)
Definition handle (c : command) (w : world) : reply * world :=
  match c with
  | Subscribe user_id user_name => subscribe_command order user_id user_name w
  | Unsubscribe user_id user_name =>
      unsubscribe_command order user_id user_name w
  end.

(** Commands are handled one after the other. *)
Fixpoint run (cs : list command) (w : world) : world :=
  match cs with
  | [] => w
  | c :: rest => run rest (snd (handle c w))
  end.

End Run.

(** Durable storage holds the set that is in memory. *)
Definition in_sync (w : world) : Prop :=
  persisted w = Some (subscribed_users w).

(** A world whose file system refuses every [open()]. *)
Definition read_only (w : world) (e : exn) : world :=
  {| subscribed_users := subscribed_users w;
     subscribers_file := subscribers_file w;
     io_fault := Some e; io_point := AtOpen;
     log := log w; calls := calls w;
     outbox := outbox w |}.

(** A world whose file can be opened but not written to the end: the
    write fails when [written] characters have reached the file. *)
Definition failing_write (w : world) (e : exn) (written : nat) : world :=
  {| subscribed_users := subscribed_users w;
     subscribers_file := subscribers_file w;
     io_fault := Some e; io_point := AfterOpen written;
     log := log w; calls := calls w;
     outbox := outbox w |}.


Definition is_subscribe (c : command) : bool :=
  match c with
  | Subscribe _ _ => true
  | Unsubscribe _ _ => false
  end.

(** The records [send_daily_rate] logs inside its loop: one for every
    recipient of the copy whose send raises, in iteration order. *)
Definition send_faults (deliver : Z -> option exn) (snapshot : list Z)
  : list log_record :=
  flat_map (fun user_id =>
              match deliver user_id with
              | Some e => [FailedToSend user_id e]
              | None => []
              end) snapshot.

End Session.

(* ================================================================== *)
(** * Properties *)

(** ** Markup-scrape variant *)
Module WebgiaSpec.
Import Webgia.

Example clean_example : clean_rate "16,500.50 VND" = "16,500.50".
Proof. vm_compute. reflexivity. Qed.

(** Digits of other scripts are digits: a rate in full-width digits, with
    full-width comma and full stop, keeps its digits. *)
Example clean_full_width : clean_rate "１６，５００．５０" = "１６５００５０".
Proof. vm_compute. reflexivity. Qed.

Lemma scan_chars_cons b rest :
  scan_chars (String b rest) =
  if is_continuation b then (b :: fst (scan_chars rest), snd (scan_chars rest))
  else ([], (code_point b (fst (scan_chars rest)),
             String b (string_of_list_ascii (fst (scan_chars rest))))
              :: snd (scan_chars rest)).
Proof. cbn [scan_chars]. destruct (scan_chars rest). reflexivity. Qed.

Lemma scan_chars_shape s :
  Forall (fun c => is_continuation c = true) (fst (scan_chars s)) /\
  Forall encoded (snd (scan_chars s)).
Proof.
  induction s as [|b rest [IHc IHf]]; [split; constructor|].
  rewrite scan_chars_cons. destruct (is_continuation b) eqn:E; cbn [fst snd].
  - split; [constructor|]; assumption.
  - split; [constructor|]. constructor; [|assumption].
    exists b, (fst (scan_chars rest)). auto.
Qed.

Lemma characters_encoded s : Forall encoded (characters s).
Proof. apply scan_chars_shape. Qed.

Lemma scan_chars_conts conts rest :
  Forall (fun c => is_continuation c = true) conts ->
  scan_chars (string_of_list_ascii conts ++ rest) =
  ((conts ++ fst (scan_chars rest))%list, snd (scan_chars rest)).
Proof.
  induction 1 as [|c conts Hc _ IH].
  - cbn [string_of_list_ascii]. change (EmptyString ++ rest) with rest.
    cbn [app]. destruct (scan_chars rest). reflexivity.
  - cbn [string_of_list_ascii].
    change (String c (string_of_list_ascii conts) ++ rest)
      with (String c (string_of_list_ascii conts ++ rest)).
    rewrite scan_chars_cons, Hc, IH. reflexivity.
Qed.

(** Decoding the concatenation of encoded characters gives them back. *)
Lemma scan_chars_join l :
  Forall encoded l -> scan_chars (join (map snd l)) = ([], l).
Proof.
  induction 1 as [|ch l (lead & conts & Hlead & Hconts & ->) _ IH];
    [reflexivity|].
  cbn [map join fold_right snd]. fold (join (map snd l)).
  change (String lead (string_of_list_ascii conts) ++ join (map snd l))
    with (String lead (string_of_list_ascii conts ++ join (map snd l))).
  rewrite scan_chars_cons, Hlead, (scan_chars_conts _ _ Hconts), IH.
  cbn [fst snd]. rewrite app_nil_r. reflexivity.
Qed.

Lemma characters_clean s :
  characters (clean_rate s) =
  List.filter (fun ch => rate_char (fst ch)) (characters s).
Proof.
  unfold clean_rate, characters at 1. rewrite scan_chars_join; [reflexivity|].
  apply List.Forall_forall. intros ch Hin. apply filter_In in Hin as [Hin _].
  pose proof (characters_encoded s) as F.
  rewrite List.Forall_forall in F. apply F. assumption.
Qed.

(** What is left after cleaning is made of digits, commas and full stops. *)
Lemma clean_rate_chars s :
  Forall (fun ch => rate_char (fst ch) = true) (characters (clean_rate s)).
Proof.
  rewrite characters_clean. apply List.Forall_forall. intros ch Hin.
  apply filter_In in Hin as [_ H]. exact H.
Qed.

Lemma filter_all_true {A : Type} (f : A -> bool) (l : list A) :
  Forall (fun x => f x = true) l -> List.filter f l = l.
Proof.
  induction 1 as [|x l Hx _ IH]; [reflexivity|].
  cbn [List.filter]. rewrite Hx, IH. reflexivity.
Qed.

(** Cleaning a cleaned text changes nothing. *)
Lemma clean_rate_idem s : clean_rate (clean_rate s) = clean_rate s.
Proof.
  unfold clean_rate at 1.
  rewrite (filter_all_true _ _ (clean_rate_chars s)), characters_clean.
  reflexivity.
Qed.



Lemma valid_rate_spec s :
  valid_rate s = true <-> s <> EmptyString /\ s <> artifact.
Proof.
  unfold valid_rate. rewrite andb_true_iff, !negb_true_iff.
  split; intros [H1 H2].
  - split; intros ->; [rewrite String.eqb_refl in H1
                      | rewrite String.eqb_refl in H2]; discriminate.
  - split; apply String.eqb_neq; assumption.
Qed.

Lemma scan_rows_cons cells rest :
  scan_rows (cells :: rest) =
  if (6 <=? length cells)%nat then
    if contains "AUD" (upper (nth 0 cells EmptyString)) then
      if valid_rate (clean_rate (nth 5 cells EmptyString))
      then Some (clean_rate (nth 5 cells EmptyString))
      else scan_rows rest
    else scan_rows rest
  else scan_rows rest.
Proof. reflexivity. Qed.

(** The loop returns only from a row that passed the three tests. *)
Lemma scan_rows_Some rows r :
  scan_rows rows = Some r ->
  exists i cells,
    rows !! i = Some cells /\ is_aud_row cells = true /\
    r = clean_rate (nth 5 cells EmptyString) /\ valid_rate r = true.
Proof.
  induction rows as [|cells rest IH]; [discriminate|].
  rewrite scan_rows_cons. intros H.
  destruct (6 <=? length cells)%nat eqn:E6;
    [destruct (contains "AUD" (upper (nth 0 cells EmptyString))) eqn:EA;
     [destruct (valid_rate (clean_rate (nth 5 cells EmptyString))) eqn:EV|]|].
  - injection H as <-. exists 0%nat, cells. unfold is_aud_row.
    rewrite E6, EA. auto.
  - destruct (IH H) as (i & c & ? & ?). exists (S i), c. auto.
  - destruct (IH H) as (i & c & ? & ?). exists (S i), c. auto.
  - destruct (IH H) as (i & c & ? & ?). exists (S i), c. auto.
Qed.

Lemma scan_rows_None rows :
  (forall i cells, rows !! i = Some cells -> is_aud_row cells = true ->
                   valid_rate (clean_rate (nth 5 cells EmptyString)) = false) ->
  scan_rows rows = None.
Proof.
  induction rows as [|cells rest IH]; [reflexivity|].
  rewrite scan_rows_cons.
  intros H. pose proof (H 0%nat cells eq_refl) as H0.
  unfold is_aud_row in H0.
  assert (scan_rows rest = None) as ->
    by (apply IH; intros i c Hi; apply (H (S i) c Hi)).
  destruct (6 <=? length cells)%nat; [|reflexivity].
  destruct (contains "AUD" (upper (nth 0 cells EmptyString))); [|reflexivity].
  rewrite H0; reflexivity.
Qed.

Lemma scan_rows_app before rest :
  scan_rows before = None -> scan_rows (before ++ rest)%list = scan_rows rest.
Proof.
  induction before as [|cells before IH]; [reflexivity|].
  rewrite <- app_comm_cons, !scan_rows_cons.
  destruct (6 <=? length cells)%nat; [|assumption].
  destruct (contains "AUD" (upper (nth 0 cells EmptyString))); [|assumption].
  destruct (valid_rate (clean_rate (nth 5 cells EmptyString)));
    [discriminate|assumption].
Qed.

Lemma scrape_on_page (n : net page) rows :
  replies n (requests n) = Ok (mkResponse 200 (Ok (Some rows))) ->
  fst (scrape_aud_rate n) = scrape_page (Some rows).
Proof.
  intros H. unfold scrape_aud_rate, session_get. simpl. rewrite H. reflexivity.
Qed.



(** A raw cell holding the artifact string is cleaned to "." before the
    comparison and is returned as a rate. *)
Example artifact_cell_passes :
  fst (scrape_aud_rate
         (serving (Some [["AUD"; "x"; "x"; "x"; "x"; "webgia.com"]])))
  = found ".".
Proof. vm_compute. reflexivity. Qed.

(** C2 as the specification words it: the rate extracted from the example
    row would be "16500.50".  The comma is in the kept character class, so
    the claim fails on the page made of that row alone. *)
Lemma C2_counterexample :
  let result := fst (scrape_aud_rate (serving (Some [example_row]))) in
  success result = true /\ rate result = Some "16,500.50" /\
  rate result <> Some "16500.50".
Proof. vm_compute. repeat split. discriminate. Qed.

(** C2, amended.  When the example row is the row the loop stops at (no
    earlier row yields a rate), the fetch succeeds with the text of cell
    index 5 unchanged, "16,500.50": digits, comma and dot are all kept. *)
Theorem C2_example_row_rate (n : net page) (before after : table) :
  replies n (requests n) =
    Ok (mkResponse 200 (Ok (Some (before ++ example_row :: after)%list))) ->
  scan_rows before = None ->
  let result := fst (scrape_aud_rate n) in
  success result = true /\ rate result = Some "16,500.50" /\
  currency result = Some "AUD" /\ error result = None.
Proof.
  intros Hn Hb result. subst result.
  rewrite (scrape_on_page n _ Hn). cbn [scrape_page].
  rewrite (scan_rows_app before _ Hb).
  assert (scan_rows (example_row :: after) = Some "16,500.50") as ->
    by (vm_compute; reflexivity).
  repeat split.
Qed.

Lemma C2_witness :
  let result :=
    fst (scrape_aud_rate
           (serving (Some ([["USD"; "US Dollar"; "1"; "2"; "3"; EmptyString]] ++
                           example_row :: [])%list))) in
  success result = true /\ rate result = Some "16,500.50" /\
  currency result = Some "AUD" /\ error result = None.
Proof.
  apply (C2_example_row_rate
           (serving (Some ([["USD"; "US Dollar"; "1"; "2"; "3"; EmptyString]] ++
                           example_row :: [])%list))
           [["USD"; "US Dollar"; "1"; "2"; "3"; EmptyString]] []).
  - reflexivity.
  - reflexivity.
Defined.

End WebgiaSpec.

(** ** Structured-API variant *)
Module ApiSpec.
Import Api.

Example format_16543_21 :
  format_float (S754_finite false 4547362938935050 (-38)) = "16,543.21".
Proof. vm_compute. reflexivity. Qed.

Example format_tie_to_even :
  format_float (S754_finite false 4503599627370496 (-55)) = "0.12" /\
  format_float (S754_finite false 6755399441055744 (-54)) = "0.38".
Proof. split; vm_compute; reflexivity. Qed.

Example format_int_17000 : format_2f (PInt 17000) = Ok "17,000.00".
Proof. vm_compute. reflexivity. Qed.

Lemma uint_chars d :
  Forall (fun c => is_digit c = true)
         (list_ascii_of_string (NilEmpty.string_of_uint d)).
Proof. induction d; simpl; constructor; auto. Qed.

Lemma digits_nonneg n :
  0 <= n ->
  Forall (fun c => is_digit c = true) (digits n) /\ digits n <> [].
Proof.
  intros Hn. unfold digits, repr_int.
  destruct n as [|p|p]; [split; [repeat constructor|discriminate]| |lia].
  simpl. pose proof (DecimalPos.Unsigned.to_uint_nonnil p) as Hnil.
  destruct (Pos.to_uint p) eqn:E; try contradiction;
    (split; [apply uint_chars|discriminate]).
Qed.

Lemma two_digits_shape n :
  0 <= n < 100 ->
  exists a b, two_digits n = [a; b] /\ is_digit a = true /\ is_digit b = true.
Proof.
  intros Hn.
  assert (forallb (fun k => match two_digits (Z.of_nat k) with
                            | [a; b] => is_digit a && is_digit b
                            | _ => false
                            end) (seq 0 100) = true) as Hall
    by (vm_compute; reflexivity).
  rewrite forallb_forall in Hall.
  specialize (Hall (Z.to_nat n)).
  rewrite Z2Nat.id in Hall by lia.
  assert (In (Z.to_nat n) (seq 0 100)) as Hin by (apply in_seq; lia).
  specialize (Hall Hin).
  destruct (two_digits n) as [|a [|b [|c l]]]; try discriminate.
  apply andb_true_iff in Hall. exists a, b. tauto.
Qed.

Lemma shaped_leading k acc :
  (1 <= k <= 3)%nat -> shaped k acc -> leading_group acc = true.
Proof.
  intros Hk (ds & t & -> & Hlen & Hds & Ht).
  destruct ds as [|a [|b [|c [|x ds]]]]; simpl in Hlen; try lia;
    repeat match goal with
           | H : Forall _ (_ :: _) |- _ => inversion H; clear H; subst
           end.
  - simpl. rewrite Ht. rewrite orb_true_l. rewrite andb_true_r. assumption.
  - cbn [app leading_group].
    repeat match goal with H : is_digit _ = true |- _ => rewrite H; clear H end.
    rewrite Ht. rewrite !orb_true_l, ?orb_true_r. reflexivity.
  - cbn [app leading_group].
    repeat match goal with H : is_digit _ = true |- _ => rewrite H; clear H end.
    rewrite Ht. rewrite ?orb_true_l, ?orb_true_r. reflexivity.
Qed.

Lemma group_acc_shape rev_digits :
  forall k acc,
    Forall (fun c => is_digit c = true) rev_digits ->
    (k <= 3)%nat -> shaped k acc ->
    rev_digits <> [] \/ (1 <= k)%nat ->
    leading_group (group_acc k rev_digits acc) = true.
Proof.
  induction rev_digits as [|d rest IH]; intros k acc Hd Hk Hs Hne.
  - simpl. apply (shaped_leading k); [|assumption].
    destruct Hne as [Hne|Hne]; [contradiction|lia].
  - inversion Hd as [|? ? Hd1 Hd2]; subst. simpl.
    destruct (k =? 3)%nat eqn:E.
    + apply Nat.eqb_eq in E. subst k.
      apply IH; [assumption|lia| |right; lia].
      destruct Hs as (ds & t & -> & Hlen & Hds & Ht).
      exists [d], (","%char :: ds ++ t)%list. repeat split; auto.
      destruct ds as [|a [|b [|c [|x ds]]]]; simpl in Hlen; try lia.
      repeat match goal with
             | H : Forall _ (_ :: _) |- _ => inversion H; clear H; subst
             end.
      cbn [app groups_then_decimals].
      repeat match goal with H : is_digit _ = true |- _ => rewrite H; clear H end.
      assumption.
    + apply Nat.eqb_neq in E.
      apply IH; [assumption|lia| |right; lia].
      destruct Hs as (ds & t & -> & Hlen & Hds & Ht).
      exists (d :: ds), t. repeat split; simpl; auto.
Qed.

Lemma fixed2_shape q : 0 <= q -> leading_group (fixed2 q) = true.
Proof.
  intros Hq. unfold fixed2.
  destruct (digits_nonneg (q / 100)) as [Hd Hne]; [apply Z.div_pos; lia|].
  destruct (two_digits_shape (q mod 100)) as (a & b & -> & Ha & Hb);
    [apply Z.mod_pos_bound; lia|].
  apply group_acc_shape.
  - apply Forall_rev; assumption.
  - lia.
  - exists [], ["."%char; a; b]. repeat split; auto.
    cbn. rewrite Ha, Hb. reflexivity.
  - left. intros H. apply Hne. apply (f_equal (@rev ascii)) in H.
    rewrite rev_involutive in H. assumption.
Qed.

Lemma hundredths_nonneg m e : 0 <= hundredths m e.
Proof.
  unfold hundredths. destruct (0 <=? e) eqn:E.
  - apply Z.leb_le in E. pose proof (Z.pow_nonneg 2 e). nia.
  - assert (0 < 2 ^ (- e)) by (apply Z.pow_pos_nonneg; lia).
    assert (0 <= (100 * Z.pos m) / 2 ^ (- e)) by (apply Z.div_pos; lia).
    cbv zeta. destruct (_ || _); lia.
Qed.

(** [hundredths] is exact for a non-negative exponent, and otherwise within
    half a hundredth of the value [m * 2^e]. *)
Lemma hundredths_nearest m e :
  if 0 <=? e then hundredths m e = 100 * Z.pos m * 2 ^ e
  else 2 * Z.abs (hundredths m e * 2 ^ (- e) - 100 * Z.pos m) <= 2 ^ (- e).
Proof.
  unfold hundredths. destruct (0 <=? e) eqn:E; [reflexivity|].
  apply Z.leb_gt in E.
  assert (0 < 2 ^ (- e)) as Hd by (apply Z.pow_pos_nonneg; lia).
  pose proof (Z.div_mod (100 * Z.pos m) (2 ^ (- e)) ltac:(lia)) as Hdiv.
  pose proof (Z.mod_pos_bound (100 * Z.pos m) (2 ^ (- e)) Hd) as Hmod.
  cbv zeta.
  set (d := 2 ^ (- e)) in *.
  set (q := 100 * Z.pos m / d) in *.
  set (r := (100 * Z.pos m) mod d) in *.
  destruct ((d <? 2 * r) || ((2 * r =? d) && Z.odd q)) eqn:Hup.
  - assert (d <= 2 * r) as Hr.
    { apply orb_true_iff in Hup. destruct Hup as [H|H].
      - apply Z.ltb_lt in H. lia.
      - apply andb_true_iff in H. destruct H as [H _].
        apply Z.eqb_eq in H. lia. }
    replace ((q + 1) * d - 100 * Z.pos m) with (d - r) by lia. lia.
  - apply orb_false_iff in Hup. destruct Hup as [H _].
    apply Z.ltb_ge in H.
    replace (q * d - 100 * Z.pos m) with (- r) by lia. lia.
Qed.

Lemma leading_not_sign l :
  leading_group l = true -> leading_group (strip_sign l) = true.
Proof.
  intros H. destruct l as [|a l']; [discriminate|]. simpl.
  destruct (Ascii.eqb_spec a "-"%char) as [->|Hne];
    [discriminate|assumption].
Qed.

(** A finite double is printed with grouped integer digits and exactly
    two decimals. *)
Lemma format_float_shape f :
  finite f = true -> two_decimals_grouped (format_float f) = true.
Proof.
  unfold two_decimals_grouped.
  destruct f as [s|s| |s m e]; try discriminate; intros _.
  - destruct s; reflexivity.
  - unfold format_float. rewrite list_ascii_of_string_of_list_ascii.
    destruct s; cbn [sign_text app];
      [apply fixed2_shape, hundredths_nonneg|].
    apply leading_not_sign, fixed2_shape, hundredths_nonneg.
Qed.

Lemma scrape_on_body py_str (n : net pyval) data :
  replies n (requests n) = Ok (mkResponse 200 (Ok data)) ->
  fst (scrape_aud_rate py_str n) = handle_fetch (scrape_data py_str data).
Proof.
  intros H. unfold scrape_aud_rate, session_get. simpl. rewrite H. reflexivity.
Qed.

(** C3 as the specification words it: every well-formed response with a
    numeric VND value yields [success=true].  The guard [if vnd_rate:]
    takes the number 0 for an absent rate: on the body
    [{"result": "success", "rates": {"VND": 0}}] the fetch fails. *)
Lemma C3_counterexample :
  let result :=
    fst (scrape_aud_rate type_name (serving (rates_body (PInt 0)))) in
  number (PInt 0) = Some (Ok (S754_zero false)) /\
  success result = false /\
  rate result = None /\
  error result = Some "VND rate not found in API response".
Proof. vm_compute. repeat split. Qed.

(** The same happens for the float 0.0. *)
Example zero_float_rejected :
  fst (scrape_aud_rate type_name
         (serving (rates_body (PFloat (S754_zero false)))))
  = failure "VND rate not found in API response".
Proof. vm_compute. reflexivity. Qed.

(** An integer beyond the range of a double makes the format raise; the
    handler turns that into a failure. *)
Example huge_int_rejected :
  fst (scrape_aud_rate type_name (serving (rates_body (PInt (2 ^ 1024)))))
  = failure "Error: int too large to convert to float".
Proof. vm_compute. reflexivity. Qed.

(** C3, amended.  For a response with HTTP 200 and result "success" whose
    rates mapping holds a VND number (an [int] or a [float]) that is not
    zero and whose value as a double [f] is finite, the fetch returns
    [success=true] and the rate is [f] printed with thousands separators
    and exactly two decimals. *)
Theorem C3_nonzero_rate_formatted
    (py_str : pyval -> string) (n : net pyval)
    (data rates : gmap string pyval) (v : pyval) (f : spec_float) :
  replies n (requests n) = Ok (mkResponse 200 (Ok (PDict data))) ->
  data !! "result" = Some (PStr "success") ->
  data !! "rates" = Some (PDict rates) ->
  rates !! "VND" = Some v ->
  number v = Some (Ok f) ->
  truthy v = true ->
  finite f = true ->
  let result := fst (scrape_aud_rate py_str n) in
  success result = true /\
  rate result = Some (format_float f) /\
  error result = None /\
  two_decimals_grouped (format_float f) = true.
Proof.
  intros Hn Hres Hrates Hvnd Hnum Htrue Hfin result. subst result.
  rewrite (scrape_on_body py_str n _ Hn).
  unfold scrape_data. cbn [py_get bind]. rewrite Hres.
  cbn [eq_str String.eqb Ascii.eqb Bool.eqb]. rewrite Hrates.
  cbn [py_get bind]. rewrite Hvnd, Htrue.
  assert (format_2f v = Ok (format_float f)) as ->.
  { destruct v; try discriminate Hnum; simpl in Hnum.
    - injection Hnum as Hz. simpl. rewrite Hz. reflexivity.
    - injection Hnum as ->. reflexivity. }
  cbn [bind handle_fetch found success rate error].
  repeat split. apply format_float_shape; assumption.
Qed.

Lemma C3_witness :
  let v := PFloat (S754_finite false 4547362938935050 (-38)) in
  let result := fst (scrape_aud_rate type_name (serving (rates_body v))) in
  success result = true /\
  rate result = Some (format_float (S754_finite false 4547362938935050 (-38))) /\
  error result = None /\
  two_decimals_grouped
    (format_float (S754_finite false 4547362938935050 (-38))) = true.
Proof.
  apply (C3_nonzero_rate_formatted type_name
           (serving (rates_body (PFloat (S754_finite false 4547362938935050 (-38)))))
           (<["result" := PStr "success"]>
              (<["rates" := PDict (<["VND" := PFloat (S754_finite false 4547362938935050 (-38))]> ∅)]> ∅))
           (<["VND" := PFloat (S754_finite false 4547362938935050 (-38))]> ∅)
           (PFloat (S754_finite false 4547362938935050 (-38)))
           (S754_finite false 4547362938935050 (-38))).
  - reflexivity.
  - vm_compute; reflexivity.
  - vm_compute; reflexivity.
  - vm_compute; reflexivity.
  - reflexivity.
  - reflexivity.
  - reflexivity.
Defined.

(** The amended claim at an integer rate. *)
Example int_rate_formatted :
  fst (scrape_aud_rate type_name (serving (rates_body (PInt 16500))))
  = found "16,500.00".
Proof. vm_compute. reflexivity. Qed.

End ApiSpec.

(** ** Both variants: failures are returned, never raised *)
Module FetchSpec.

Lemma failure_failed msg : msg <> EmptyString -> failed (failure msg).
Proof. intros H. repeat split. exists msg. auto. Qed.

Lemma handled_exception_failed e : failed (handle_fetch (Raise e)).
Proof. destruct e; apply failure_failed; discriminate. Qed.

Lemma failure_failed_with msg : failed_with (failure msg) msg.
Proof. repeat split. Qed.

Lemma text_not_empty (c : ascii) (s t : string) :
  String c s ++ t <> EmptyString.
Proof. discriminate. Qed.

Lemma api_structural_reported py_str data :
  Api.structural_failure data ->
  exists msg,
    Api.structural_message py_str data msg /\
    handle_fetch (Api.scrape_data py_str data) = failure msg /\
    msg <> EmptyString.
Proof.
  intros [d Hres | d Hres Hrates | d rates Hres Hrates Hvnd];
    unfold Api.scrape_data; cbn [Api.py_get bind].
  - assert (Api.eq_str (match d !! "result" with
                        | Some x => x
                        | None => Api.PNone
                        end) "success" = false) as ->
      by (destruct (d !! "result") as [v|]; [apply Hres|]; reflexivity).
    eexists. split; [apply Api.no_success_indicator_message; exact Hres|].
    split; [reflexivity|apply text_not_empty].
  - rewrite Hres, Hrates. cbn [Api.eq_str String.eqb Ascii.eqb Bool.eqb].
    cbn [Api.py_get bind]. rewrite lookup_empty. cbn [Api.truthy].
    eexists. split; [apply Api.no_rates_message; assumption|].
    split; [reflexivity|discriminate].
  - rewrite Hres, Hrates. cbn [Api.eq_str String.eqb Ascii.eqb Bool.eqb].
    cbn [Api.py_get bind]. rewrite Hvnd. cbn [Api.truthy].
    eexists. split; [apply (Api.no_currency_message _ d rates); assumption|].
    split; [reflexivity|discriminate].
Qed.

Lemma webgia_structural_reported p :
  Webgia.structural_failure p ->
  exists msg,
    Webgia.structural_message p msg /\
    Webgia.scrape_page p = failure msg /\
    msg <> EmptyString.
Proof.
  intros Hp. destruct Hp as [|rows Hrows] eqn:E; cbn [Webgia.scrape_page].
  - eexists. split; [apply Webgia.no_table_message|].
    split; [reflexivity|discriminate].
  - rewrite WebgiaSpec.scan_rows_None.
    + eexists. split; [apply Webgia.no_rate_message; exact Hp|].
      split; [reflexivity|discriminate].
    + intros i cells Hi Haud.
      destruct (Hrows i cells Hi Haud) as [-> | ->]; reflexivity.
Qed.

(** C6. In both variants, whenever the upstream answers the request with
    one of the failure modes (a timeout, any other exception from the
    request or from reading the body, a status other than 200, a
    structural failure of the body), [scrape_aud_rate] returns a result
    (nothing is raised) with [success=false], no rate and, as its error,
    the message that failure mode is reported with: the sentence about the
    timeout, "Error: " and the text of the exception, the sentence with
    the HTTP status, or the sentence that names what the body lacks.  It
    has issued exactly one request. *)
Theorem C6_failures_returned_after_one_request :
  (forall (py_str : Api.pyval -> string) (n : net Api.pyval),
     failure_mode Api.structural_failure (replies n (requests n)) ->
     exists msg,
       reported "Failed to fetch rate. HTTP Status: "
                (Api.structural_message py_str)
                (replies n (requests n)) msg /\
       failed_with (fst (Api.scrape_aud_rate py_str n)) msg /\
       msg <> EmptyString /\
       requests (snd (Api.scrape_aud_rate py_str n)) = S (requests n)) /\
  (forall (n : net Webgia.page),
     failure_mode Webgia.structural_failure (replies n (requests n)) ->
     exists msg,
       reported "Failed to fetch page. HTTP Status: "
                Webgia.structural_message
                (replies n (requests n)) msg /\
       failed_with (fst (Webgia.scrape_aud_rate n)) msg /\
       msg <> EmptyString /\
       requests (snd (Webgia.scrape_aud_rate n)) = S (requests n)).
Proof.
  split.
  - intros py_str n Hmode.
    unfold Api.scrape_aud_rate, session_get. cbn [fst snd requests].
    destruct Hmode as [|msg|r Hst|r e Hst Hbody|r b Hst Hbody Hstruct];
      unfold Api.fetch_body; cbn [bind handle_fetch].
    + eexists. split; [apply timeout_reported|].
      split; [apply failure_failed_with|]. split; [discriminate|reflexivity].
    + eexists. split; [apply exception_reported|].
      split; [apply failure_failed_with|].
      split; [apply text_not_empty|reflexivity].
    + pose proof Hst as Hne. apply Z.eqb_neq in Hne. rewrite Hne.
      cbn [handle_fetch].
      eexists. split; [apply status_reported; exact Hst|].
      split; [apply failure_failed_with|].
      split; [apply text_not_empty|reflexivity].
    + rewrite Hst, Hbody. cbn [Z.eqb Pos.eqb bind handle_fetch].
      destruct e as [|msg].
      * eexists. split; [apply body_timeout_reported; assumption|].
        split; [apply failure_failed_with|].
        split; [discriminate|reflexivity].
      * eexists. split; [apply body_exception_reported; eassumption|].
        split; [apply failure_failed_with|].
        split; [apply text_not_empty|reflexivity].
    + rewrite Hst, Hbody. cbn [Z.eqb Pos.eqb bind].
      destruct (api_structural_reported py_str b Hstruct)
        as (msg & Hmsg & -> & Hne).
      exists msg. split; [apply (structure_reported _ _ r b); assumption|].
      split; [apply failure_failed_with|]. split; [assumption|reflexivity].
  - intros n Hmode.
    unfold Webgia.scrape_aud_rate, session_get. cbn [fst snd requests].
    destruct Hmode as [|msg|r Hst|r e Hst Hbody|r b Hst Hbody Hstruct];
      unfold Webgia.fetch_body; cbn [bind handle_fetch].
    + eexists. split; [apply timeout_reported|].
      split; [apply failure_failed_with|]. split; [discriminate|reflexivity].
    + eexists. split; [apply exception_reported|].
      split; [apply failure_failed_with|].
      split; [apply text_not_empty|reflexivity].
    + pose proof Hst as Hne. apply Z.eqb_neq in Hne. rewrite Hne.
      cbn [handle_fetch].
      eexists. split; [apply status_reported; exact Hst|].
      split; [apply failure_failed_with|].
      split; [apply text_not_empty|reflexivity].
    + rewrite Hst, Hbody. cbn [Z.eqb Pos.eqb bind handle_fetch].
      destruct e as [|msg].
      * eexists. split; [apply body_timeout_reported; assumption|].
        split; [apply failure_failed_with|].
        split; [discriminate|reflexivity].
      * eexists. split; [apply body_exception_reported; eassumption|].
        split; [apply failure_failed_with|].
        split; [apply text_not_empty|reflexivity].
    + rewrite Hst, Hbody. cbn [Z.eqb Pos.eqb bind handle_fetch].
      destruct (webgia_structural_reported b Hstruct)
        as (msg & Hmsg & -> & Hne).
      exists msg. split; [apply (structure_reported _ _ r b); assumption|].
      split; [apply failure_failed_with|]. split; [assumption|reflexivity].
Qed.

Lemma C6_witness :
  (exists msg,
     reported "Failed to fetch rate. HTTP Status: "
              (Api.structural_message Api.type_name)
              (replies (timing_out : net Api.pyval)
                       (requests (timing_out : net Api.pyval))) msg /\
     failed_with (fst (Api.scrape_aud_rate Api.type_name timing_out)) msg /\
     msg <> EmptyString /\
     requests (snd (Api.scrape_aud_rate Api.type_name timing_out))
     = S (requests (timing_out : net Api.pyval))) /\
  (exists msg,
     reported "Failed to fetch page. HTTP Status: "
              Webgia.structural_message
              (replies (Webgia.serving None)
                       (requests (Webgia.serving None))) msg /\
     failed_with (fst (Webgia.scrape_aud_rate (Webgia.serving None))) msg /\
     msg <> EmptyString /\
     requests (snd (Webgia.scrape_aud_rate (Webgia.serving None)))
     = S (requests (Webgia.serving None))).
Proof.
  split.
  - apply (proj1 C6_failures_returned_after_one_request
             Api.type_name timing_out).
    simpl. apply request_timeout.
  - apply (proj2 C6_failures_returned_after_one_request (Webgia.serving None)).
    simpl. apply (bad_structure _ _ None); [reflexivity|reflexivity|].
    apply Webgia.no_table.
Defined.

(** The messages of some failure modes, as the user reads them. *)
Example failure_messages :
  error (fst (Webgia.scrape_aud_rate timing_out))
  = Some "Request timeout. Please try again later." /\
  error (fst (Webgia.scrape_aud_rate
                {| replies := fun _ => Ok (mkResponse 503 (Ok None));
                   requests := 0 |}))
  = Some "Failed to fetch page. HTTP Status: 503" /\
  error (fst (Api.scrape_aud_rate Api.type_name
                {| replies := fun _ => Raise (Error "Cannot connect to host");
                   requests := 0 |}))
  = Some "Error: Cannot connect to host" /\
  error (fst (Webgia.scrape_aud_rate
                (Webgia.serving (Some Webgia.page_without_rate))))
  = Some "AUD rate not found in the table. The website might have changed its structure.".
Proof. vm_compute. repeat split. Qed.

(** Whatever the upstream does, the result is a success carrying a rate or
    a failure carrying a message. *)
Lemma webgia_outcome (n : net Webgia.page) :
  let result := fst (Webgia.scrape_aud_rate n) in
  (success result = true /\ exists r, rate result = Some r) \/ failed result.
Proof.
  unfold Webgia.scrape_aud_rate, session_get. simpl.
  destruct (replies n (requests n)) as [r|e]; cbn [Webgia.fetch_body bind];
    [|right; apply handled_exception_failed].
  destruct (status r =? 200);
    [|right; apply failure_failed; discriminate].
  destruct (body r) as [p|e]; cbn [bind];
    [|right; apply handled_exception_failed].
  destruct p as [rows|]; simpl; [|right; apply failure_failed; discriminate].
  destruct (Webgia.scan_rows rows) as [x|]; simpl;
    [left; eauto|right; apply failure_failed; discriminate].
Qed.

End FetchSpec.

(** ** The JSON text written by [save_subscribers] decodes to what was
    written *)
Module JsonSpec.
Import Json.

Lemma chars_app (a b : string) : chars (a ++ b) = (chars a ++ chars b)%list.
Proof. induction a as [|c a IH]; simpl; [reflexivity|]. rewrite IH; reflexivity. Qed.

(** *** The fuel of the decoder is enough

    The tokenizer and the parser recurse on a fuel argument.  Every step
    consumes input, so the verdict of [json_loads] is the verdict for any
    larger fuel: running out of fuel never turns a text into a rejected
    one. *)

Lemma span_digits_length s :
  (length (snd (span_digits s)) <= length s)%nat.
Proof.
  induction s as [|c s IH]; simpl; [lia|].
  destruct (is_digit c); [|simpl; lia].
  destruct (span_digits s) as [ds r]. simpl in *. lia.
Qed.

Lemma strip_prefix_length p : forall s r,
  strip_prefix p s = Some r -> length s = (length p + length r)%nat.
Proof.
  induction p as [|c p IH]; intros s r; simpl.
  - intros H. injection H as <-. reflexivity.
  - destruct s as [|d s]; [discriminate|].
    destruct (Ascii.eqb c d); [|discriminate].
    intros H. apply IH in H. simpl. lia.
Qed.

Lemma lex_int_part_shorter s ds r :
  lex_int_part s = Some (ds, r) -> (length r < length s)%nat.
Proof.
  destruct s as [|c s]; simpl; [discriminate|].
  destruct (Ascii.eqb c "0").
  - intros H. injection H as _ <-. lia.
  - destruct (is_digit c); [|discriminate].
    pose proof (span_digits_length s) as Hlen.
    destruct (span_digits s) as [ds' r']. simpl in Hlen.
    intros H. injection H as _ <-. lia.
Qed.

Lemma lex_frac_length s : (length (snd (lex_frac s)) <= length s)%nat.
Proof.
  destruct s as [|c s]; simpl; [lia|].
  destruct (Ascii.eqb c "."); [|simpl; lia].
  pose proof (span_digits_length s) as Hlen.
  destruct (span_digits s) as [[|d ds] r]; simpl in *; lia.
Qed.

Lemma lex_exp_length s : (length (snd (lex_exp s)) <= length s)%nat.
Proof.
  destruct s as [|c s]; simpl; [lia|].
  destruct (Ascii.eqb c "e" || Ascii.eqb c "E"); [|simpl; lia].
  destruct s as [|x s].
  - simpl. lia.
  - destruct (Ascii.eqb x "+" || Ascii.eqb x "-").
    + pose proof (span_digits_length s) as Hlen.
      destruct (span_digits s) as [[|d ds] r]; simpl in *; lia.
    + pose proof (span_digits_length (x :: s)) as Hlen.
      destruct (span_digits (x :: s)) as [[|d ds] r]; simpl in *; lia.
Qed.

Lemma lex_number_shorter s t rest :
  lex_number s = Some (t, rest) -> (length rest < length s)%nat.
Proof.
  unfold lex_number.
  assert (forall sgn s1,
             (length s1 <= length s)%nat ->
             (sgn <> [] -> length s1 < length s)%nat ->
             match lex_int_part s1 with
             | Some (ds, s2) =>
                 let (frac, s3) := lex_frac s2 in
                 let (ex, s4) := lex_exp s3 in
                 match (frac ++ ex)%list with
                 | [] =>
                     match int_of_text (sgn ++ ds)%list with
                     | Some z => Some (TInt z, s4)
                     | None => None
                     end
                 | _ => Some (TReal (sgn ++ ds ++ frac ++ ex)%list, s4)
                 end
             | None =>
                 match sgn with
                 | [] => None
                 | _ =>
                     match strip_prefix (list_ascii_of_string "Infinity") s1 with
                     | Some r => Some (TReal (list_ascii_of_string "-Infinity"), r)
                     | None => None
                     end
                 end
             end = Some (t, rest) ->
             (length rest < length s)%nat) as Hgen.
  { intros sgn s1 Hle Hlt.
    destruct (lex_int_part s1) as [[ds s2]|] eqn:Eint.
    - apply lex_int_part_shorter in Eint.
      pose proof (lex_frac_length s2) as Hf.
      destruct (lex_frac s2) as [frac s3]. simpl in Hf.
      pose proof (lex_exp_length s3) as He.
      destruct (lex_exp s3) as [ex s4]. simpl in He.
      destruct (frac ++ ex)%list.
      + destruct (int_of_text (sgn ++ ds)%list); [|discriminate].
        intros H. injection H as _ <-. lia.
      + intros H. injection H as _ <-. lia.
    - destruct sgn as [|x sgn]; [discriminate|].
      destruct (strip_prefix _ s1) as [r|] eqn:Ep; [|discriminate].
      apply strip_prefix_length in Ep.
      intros H. injection H as _ <-.
      assert (length s1 < length s)%nat by (apply Hlt; discriminate). lia. }
  destruct s as [|c s].
  - apply (Hgen [] []); [lia|intros H; contradiction].
  - destruct (Ascii.eqb c "-").
    + apply (Hgen [c] s); simpl; lia.
    + apply (Hgen [] (c :: s)); [lia|intros H; contradiction].
Qed.

Lemma lex_string_shorter n : forall s raw rest,
  (length s <= n)%nat ->
  lex_string s = Some (raw, rest) -> (length rest < length s)%nat.
Proof.
  induction n as [|n IH]; intros s raw rest Hn.
  - destruct s; [discriminate|simpl in Hn; lia].
  - destruct s as [|c s]; [discriminate|]. simpl in Hn.
    cbn [lex_string].
    destruct (Ascii.eqb c quote).
    { intros H. injection H as _ <-. simpl. lia. }
    assert (forall cs s', (length s' <= n)%nat ->
              prepend cs (lex_string s') = Some (raw, rest) ->
              (length rest < length s')%nat) as Hpre.
    { intros cs s' Hs'. unfold prepend.
      destruct (lex_string s') as [[raw' rest']|] eqn:E; [|discriminate].
      intros H. injection H as _ <-. exact (IH s' raw' rest' Hs' E). }
    destruct (Ascii.eqb c backslash).
    + destruct s as [|e s1]; [discriminate|]. simpl in Hn.
      destruct (is_simple_escape e).
      { intros H. apply Hpre in H; simpl; lia. }
      destruct (Ascii.eqb e "u"); [|discriminate].
      destruct s1 as [|h1 [|h2 [|h3 [|h4 s2]]]]; try discriminate.
      destruct (is_hex h1 && is_hex h2 && is_hex h3 && is_hex h4);
        [|discriminate].
      simpl in Hn. intros H. apply Hpre in H; simpl; lia.
    + destruct (is_control c); [discriminate|].
      intros H. apply Hpre in H; simpl; lia.
Qed.

Lemma lex_literal_shorter s t rest :
  lex_literal s = Some (t, rest) -> (length rest < length s)%nat.
Proof.
  unfold lex_literal.
  repeat match goal with
         | |- context [strip_prefix ?p s] =>
             let E := fresh "E" in
             destruct (strip_prefix p s) eqn:E;
             [apply strip_prefix_length in E; simpl in E;
              intros H; injection H as _ <-; lia|]
         end.
  discriminate.
Qed.

(** Any two fuels that cover the length of the text give the same tokens. *)
Lemma lex_fuel fuel1 : forall fuel2 s,
  (length s <= fuel1)%nat -> (length s <= fuel2)%nat ->
  lex fuel1 s = lex fuel2 s.
Proof.
  induction fuel1 as [|fuel1 IH]; intros fuel2 s H1 H2.
  - destruct s; [|simpl in H1; lia]. destruct fuel2; reflexivity.
  - destruct s as [|c s]; [destruct fuel2; reflexivity|].
    destruct fuel2 as [|fuel2]; simpl in H1, H2; [lia|].
    cbn [lex].
    destruct (is_ws c); [apply IH; lia|].
    destruct (punctuation c); [rewrite (IH fuel2 s) by lia; reflexivity|].
    destruct (Ascii.eqb c quote).
    { destruct (lex_string s) as [[raw rest]|] eqn:E; [|reflexivity].
      apply (lex_string_shorter (length s)) in E; [|lia].
      rewrite (IH fuel2 rest) by lia. reflexivity. }
    destruct (Ascii.eqb c "-" || is_digit c).
    { destruct (lex_number (c :: s)) as [[t rest]|] eqn:E; [|reflexivity].
      apply lex_number_shorter in E. simpl in E.
      rewrite (IH fuel2 rest) by lia. reflexivity. }
    destruct (lex_literal (c :: s)) as [[t rest]|] eqn:E; [|reflexivity].
    apply lex_literal_shorter in E. simpl in E.
    rewrite (IH fuel2 rest) by lia. reflexivity.
Qed.

Lemma lex_token_count fuel : forall s ts,
  lex fuel s = Some ts -> (length ts <= length s)%nat.
Proof.
  induction fuel as [|fuel IH]; intros s ts.
  - destruct s; [|discriminate]. intros H. injection H as <-. simpl. lia.
  - destruct s as [|c s]; [intros H; injection H as <-; simpl; lia|].
    cbn [lex].
    assert (forall t rest, (length rest <= length s)%nat ->
              push t (lex fuel rest) = Some ts ->
              (length ts <= length (c :: s))%nat) as Hpush.
    { intros t rest Hr. unfold push.
      destruct (lex fuel rest) as [ts'|] eqn:E; [|discriminate].
      apply IH in E. intros H. injection H as <-. simpl. lia. }
    destruct (is_ws c); [intros H; apply IH in H; simpl; lia|].
    destruct (punctuation c); [apply Hpush; lia|].
    destruct (Ascii.eqb c quote).
    { destruct (lex_string s) as [[raw rest]|] eqn:E; [|discriminate].
      apply (lex_string_shorter (length s)) in E; [|lia].
      apply Hpush; lia. }
    destruct (Ascii.eqb c "-" || is_digit c).
    { destruct (lex_number (c :: s)) as [[t rest]|] eqn:E; [|discriminate].
      apply lex_number_shorter in E. simpl in E. apply Hpush; lia. }
    destruct (lex_literal (c :: s)) as [[t rest]|] eqn:E; [|discriminate].
    apply lex_literal_shorter in E. simpl in E. apply Hpush; lia.
Qed.

Lemma parse_value_S fuel ts :
  parse_value (S fuel) ts =
  match ts with
  | TNull :: r => Some (JNull, r)
  | TTrue :: r => Some (JBool true, r)
  | TFalse :: r => Some (JBool false, r)
  | TInt z :: r => Some (JInt z, r)
  | TReal raw :: r => Some (JReal raw, r)
  | TStr raw :: r => Some (JStr raw, r)
  | LBracket :: RBracket :: r => Some (JArr [], r)
  | LBracket :: r =>
      match parse_items fuel r with
      | Some (items, r') => Some (JArr items, r')
      | None => None
      end
  | LBrace :: RBrace :: r => Some (JObj [], r)
  | LBrace :: r =>
      match parse_members fuel r with
      | Some (members, r') => Some (JObj members, r')
      | None => None
      end
  | _ => None
  end.
Proof. reflexivity. Qed.

Lemma parse_items_S fuel ts :
  parse_items (S fuel) ts =
  match parse_value fuel ts with
  | Some (v, RBracket :: r) => Some ([v], r)
  | Some (v, Comma :: r) =>
      match parse_items fuel r with
      | Some (vs, r') => Some (v :: vs, r')
      | None => None
      end
  | _ => None
  end.
Proof. reflexivity. Qed.

Lemma parse_members_S fuel ts :
  parse_members (S fuel) ts =
  match ts with
  | TStr key :: Colon :: r =>
      match parse_value fuel r with
      | Some (v, RBrace :: r') => Some ([(key, v)], r')
      | Some (v, Comma :: r') =>
          match parse_members fuel r' with
          | Some (ms, r'') => Some ((key, v) :: ms, r'')
          | None => None
          end
      | _ => None
      end
  | _ => None
  end.
Proof. reflexivity. Qed.

(** A successful parse consumes tokens. *)
Lemma parse_shorter fuel :
  (forall ts v r, parse_value fuel ts = Some (v, r) ->
                  (length r < length ts)%nat) /\
  (forall ts vs r, parse_items fuel ts = Some (vs, r) ->
                   (length r < length ts)%nat) /\
  (forall ts ms r, parse_members fuel ts = Some (ms, r) ->
                   (length r < length ts)%nat).
Proof.
  induction fuel as [|fuel (IHv & IHi & IHm)];
    [repeat split; intros; discriminate|].
  repeat split.
  - intros ts v r. rewrite parse_value_S.
    destruct ts as [|t ts]; [discriminate|].
    destruct t; try discriminate;
      try (intros H; injection H as _ <-; simpl; lia).
    + destruct (parse_items fuel ts) as [[items r']|] eqn:E.
      * apply IHi in E.
        destruct ts as [|[] ts']; intros H; injection H as _ <-;
          simpl in *; lia.
      * destruct ts as [|[] ts']; try discriminate.
        intros H; injection H as _ <-; simpl; lia.
    + destruct (parse_members fuel ts) as [[members r']|] eqn:E.
      * apply IHm in E.
        destruct ts as [|[] ts']; intros H; injection H as _ <-;
          simpl in *; lia.
      * destruct ts as [|[] ts']; try discriminate.
        intros H; injection H as _ <-; simpl; lia.
  - intros ts vs r. rewrite parse_items_S.
    destruct (parse_value fuel ts) as [[v [|t r0]]|] eqn:E; try discriminate.
    apply IHv in E. simpl in E.
    destruct t; try discriminate.
    + intros H; injection H as _ <-; lia.
    + destruct (parse_items fuel r0) as [[vs' r']|] eqn:E2; [|discriminate].
      apply IHi in E2. intros H; injection H as _ <-; lia.
  - intros ts ms r. rewrite parse_members_S.
    destruct ts as [|[] [|[] ts]]; try discriminate.
    destruct (parse_value fuel ts) as [[v [|t r0]]|] eqn:E; try discriminate.
    apply IHv in E. simpl in E.
    destruct t; try discriminate.
    + intros H; injection H as _ <-; simpl; lia.
    + destruct (parse_members fuel r0) as [[ms' r']|] eqn:E2; [|discriminate].
      apply IHm in E2. intros H; injection H as _ <-; simpl; lia.
Qed.

(** Any two fuels above twice the number of tokens give the same parse. *)
Lemma parse_fuel fuel1 : forall fuel2,
  (forall ts, (2 * length ts <= fuel1)%nat -> (2 * length ts <= fuel2)%nat ->
              parse_value fuel1 ts = parse_value fuel2 ts) /\
  (forall ts, (2 * length ts + 1 <= fuel1)%nat ->
              (2 * length ts + 1 <= fuel2)%nat ->
              parse_items fuel1 ts = parse_items fuel2 ts) /\
  (forall ts, (2 * length ts <= fuel1)%nat -> (2 * length ts <= fuel2)%nat ->
              parse_members fuel1 ts = parse_members fuel2 ts).
Proof.
  induction fuel1 as [|fuel1 IH]; intros fuel2.
  - repeat split; intros ts H1 H2; try lia.
    + destruct ts; [|simpl in H1; lia]. destruct fuel2; reflexivity.
    + destruct ts; [|simpl in H1; lia]. destruct fuel2; reflexivity.
  - destruct fuel2 as [|fuel2].
    { repeat split; intros ts H1 H2; try lia;
        destruct ts; simpl in H2; try lia; reflexivity. }
    destruct (IH fuel2) as (IHv & IHi & IHm).
    destruct (parse_shorter fuel1) as (Sv & _ & _).
    repeat split; intros ts H1 H2.
    + rewrite !parse_value_S.
      destruct ts as [|t ts]; [reflexivity|]. simpl in H1, H2.
      destruct t; try reflexivity.
      * rewrite (IHi ts) by lia. reflexivity.
      * rewrite (IHm ts) by lia. reflexivity.
    + rewrite !parse_items_S. rewrite <- (IHv ts) by lia.
      destruct (parse_value fuel1 ts) as [[v [|t r0]]|] eqn:E; try reflexivity.
      apply Sv in E. simpl in E.
      destruct t; try reflexivity.
      rewrite (IHi r0) by lia. reflexivity.
    + rewrite !parse_members_S.
      destruct ts as [|[] [|[] ts]]; try reflexivity. simpl in H1, H2.
      rewrite <- (IHv ts) by lia.
      destruct (parse_value fuel1 ts) as [[v [|t r0]]|] eqn:E; try reflexivity.
      apply Sv in E. simpl in E.
      destruct t; try reflexivity.
      rewrite (IHm r0) by lia. reflexivity.
Qed.

(** The verdict of [json_loads] is that of the decoder run with any larger
    fuel. *)
Lemma json_loads_fuel fuel text :
  (2 * length (chars text) + 2 <= fuel)%nat ->
  decode_with fuel text = json_loads text.
Proof.
  intros Hfuel. unfold decode_with, json_loads.
  rewrite (lex_fuel fuel (length (chars text)) (chars text)) by lia.
  destruct (lex (length (chars text)) (chars text)) as [ts|] eqn:E;
    [|reflexivity].
  apply lex_token_count in E.
  destruct (parse_fuel fuel (2 * length ts + 2)) as (Hv & _ & _).
  rewrite (Hv ts) by lia. reflexivity.
Qed.

Lemma span_digits_stop ds c rest :
  Forall (fun x => is_digit x = true) ds -> is_digit c = false ->
  span_digits (ds ++ c :: rest) = (ds, c :: rest).
Proof.
  intros Hds Hc. induction Hds as [|d ds Hd _ IH]; simpl.
  - rewrite Hc. reflexivity.
  - rewrite Hd, IH. reflexivity.
Qed.

Lemma uint_digits d :
  Forall (fun c => is_digit c = true) (chars (NilEmpty.string_of_uint d)).
Proof. induction d; simpl; constructor; auto. Qed.

(** The decimal numeral of a positive number has no leading zero. *)
Lemma to_uint_head p d : Pos.to_uint p <> Decimal.D0 d.
Proof.
  intros H.
  pose proof (DecimalZ.to_of (Z.to_int (Z.pos p))) as Hn.
  rewrite DecimalZ.of_to in Hn. simpl in Hn.
  injection Hn as Hn. rewrite H in Hn. unfold Decimal.unorm in Hn.
  destruct (Decimal.nzhead (Decimal.D0 d)) eqn:E; try discriminate Hn.
  - injection Hn as Hd. subst d.
    exact (DecimalPos.Unsigned.to_uint_nonzero p H).
  - exact (DecimalFacts.nzhead_nonzero _ _ E).
Qed.

(** The integer part of the literal of a positive number. *)
Lemma lex_int_part_pos p c rest :
  is_digit c = false ->
  lex_int_part (chars (NilEmpty.string_of_uint (Pos.to_uint p)) ++ c :: rest)
  = Some (chars (NilEmpty.string_of_uint (Pos.to_uint p)), c :: rest).
Proof.
  intros Hc. pose proof (to_uint_head p) as Hhead.
  pose proof (DecimalPos.Unsigned.to_uint_nonnil p) as Hnil.
  destruct (Pos.to_uint p) as [|d|d|d|d|d|d|d|d|d|d];
    [contradiction|exfalso; exact (Hhead d eq_refl)|..];
    cbn [NilEmpty.string_of_uint list_ascii_of_string app lex_int_part];
    cbn [Ascii.eqb Bool.eqb is_digit];
    rewrite (span_digits_stop _ c rest (uint_digits d) Hc); reflexivity.
Qed.

Lemma int_of_text_repr z : int_of_text (chars (repr_int z)) = Some z.
Proof.
  unfold int_of_text, repr_int. rewrite string_of_list_ascii_of_string.
  rewrite NilZero.isi.
  - simpl. rewrite DecimalZ.of_to. reflexivity.
  - destruct z; simpl; try discriminate.
    intros H. injection H as H.
    exact (DecimalPos.Unsigned.to_uint_nonnil _ H).
  - destruct z; simpl; try discriminate.
    intros H. injection H as H.
    exact (DecimalPos.Unsigned.to_uint_nonnil _ H).
Qed.

Lemma repr_pos p :
  repr_int (Z.pos p) = NilEmpty.string_of_uint (Pos.to_uint p).
Proof.
  unfold repr_int. simpl.
  pose proof (DecimalPos.Unsigned.to_uint_nonnil p).
  destruct (Pos.to_uint p); try reflexivity. contradiction.
Qed.

Lemma repr_neg p :
  repr_int (Z.neg p) = String "-" (NilEmpty.string_of_uint (Pos.to_uint p)).
Proof.
  unfold repr_int. simpl.
  pose proof (DecimalPos.Unsigned.to_uint_nonnil p).
  destruct (Pos.to_uint p); try reflexivity. contradiction.
Qed.

Lemma uint_head_not_sign d s :
  chars (NilEmpty.string_of_uint d) = "-"%char :: s -> False.
Proof. destruct d; discriminate. Qed.

(** The literal [str(z)] followed by a separator is read back as [z]. *)
Lemma lex_number_repr z c rest :
  is_sep c ->
  lex_number (chars (repr_int z) ++ c :: rest) = Some (TInt z, c :: rest).
Proof.
  intros Hsep.
  assert (is_digit c = false) as Hd by (destruct Hsep; subst; reflexivity).
  assert (lex_frac (c :: rest) = ([], c :: rest)) as Hfrac
    by (destruct Hsep; subst; reflexivity).
  assert (lex_exp (c :: rest) = ([], c :: rest)) as Hexp
    by (destruct Hsep; subst; reflexivity).
  pose proof (int_of_text_repr z) as Hint.
  destruct z as [|p|p].
  - change (chars (repr_int 0)) with ["0"%char]. cbn [app].
    unfold lex_number.
    cbn [Ascii.eqb Bool.eqb lex_int_part].
    rewrite Hfrac, Hexp. reflexivity.
  - rewrite repr_pos in *. unfold lex_number.
    destruct (chars (NilEmpty.string_of_uint (Pos.to_uint p))) as [|a s] eqn:E.
    + exfalso. pose proof (DecimalPos.Unsigned.to_uint_nonnil p) as Hnil.
      destruct (Pos.to_uint p); first [discriminate|contradiction].
    + cbn [app]. destruct (Ascii.eqb_spec a "-"%char) as [->|_].
      * exfalso. exact (uint_head_not_sign _ _ E).
      * rewrite app_comm_cons, <- E, lex_int_part_pos by assumption.
        rewrite <- E in Hint.
        rewrite Hfrac, Hexp. cbn [app]. rewrite Hint. reflexivity.
  - rewrite repr_neg in *. unfold lex_number.
    cbn [list_ascii_of_string app Ascii.eqb Bool.eqb].
    rewrite lex_int_part_pos by assumption.
    rewrite Hfrac, Hexp. cbn [app]. cbn [list_ascii_of_string] in Hint.
    rewrite Hint. reflexivity.
Qed.

Lemma repr_head z :
  exists c0 s, chars (repr_int z) = c0 :: s /\
               (c0 = "-"%char \/ is_digit c0 = true).
Proof.
  destruct z as [|p|p].
  - exists "0"%char, []. split; [reflexivity|right; reflexivity].
  - rewrite repr_pos. pose proof (uint_digits (Pos.to_uint p)) as Hd.
    pose proof (DecimalPos.Unsigned.to_uint_nonnil p) as Hnil.
    destruct (chars (NilEmpty.string_of_uint (Pos.to_uint p))) as [|a s] eqn:E.
    + destruct (Pos.to_uint p); first [discriminate|contradiction].
    + inversion Hd; subst. exists a, s. auto.
  - rewrite repr_neg. eexists _, _. split; [reflexivity|left; reflexivity].
Qed.

Lemma digit_is_plain c :
  is_digit c = true ->
  is_ws c = false /\ punctuation c = None /\ Ascii.eqb c quote = false.
Proof.
  destruct c as [[] [] [] [] [] [] [] []]; vm_compute; intros H;
    first [discriminate H | repeat split].
Qed.

(** A character that starts a number sends the tokenizer to [lex_number]. *)
Lemma lex_number_step fuel c0 s :
  c0 = "-"%char \/ is_digit c0 = true ->
  lex (S fuel) (c0 :: s) =
  match lex_number (c0 :: s) with
  | Some (t, rest) => push t (lex fuel rest)
  | None => None
  end.
Proof.
  intros [->|Hd]; [reflexivity|].
  destruct (digit_is_plain c0 Hd) as (Hws & Hp & Hq).
  cbn [lex]. rewrite Hws, Hp, Hq, Hd, orb_true_r. reflexivity.
Qed.

Lemma lex_repr fuel z c rest :
  is_sep c ->
  lex (S fuel) (chars (repr_int z) ++ c :: rest) =
  push (TInt z) (lex fuel (c :: rest)).
Proof.
  intros Hsep. destruct (repr_head z) as (c0 & s & E & Hc0).
  pose proof (lex_number_repr z c rest Hsep) as Hnum.
  rewrite E in *. cbn [app] in *.
  rewrite lex_number_step by assumption. rewrite Hnum. reflexivity.
Qed.

Lemma lex_nil fuel : lex fuel [] = Some [].
Proof. destruct fuel; reflexivity. Qed.

Lemma lex_closing fuel : lex (S fuel) ["]"%char] = Some [RBracket].
Proof.
  cbn [lex is_ws punctuation Ascii.eqb Bool.eqb orb]. rewrite lex_nil.
  reflexivity.
Qed.

Lemma repr_length z : (1 <= length (chars (repr_int z)))%nat.
Proof. destruct (repr_head z) as (c0 & s & -> & _). simpl. lia. Qed.

(** Tokens of the text between the brackets, up to the closing bracket. *)
Lemma lex_ids ids :
  ids <> [] ->
  forall fuel,
    (length (chars (String.concat ", " (map repr_int ids))) < fuel)%nat ->
    lex fuel (chars (String.concat ", " (map repr_int ids)) ++ ["]"%char])
    = Some (id_tokens ids ++ [RBracket])%list.
Proof.
  induction ids as [|z ids IH]; [contradiction|]. intros _ fuel Hfuel.
  destruct ids as [|y ids].
  - cbn [map String.concat id_tokens] in *.
    pose proof (repr_length z).
    destruct fuel as [|[|fuel]]; try lia.
    rewrite lex_repr by (right; reflexivity). rewrite lex_closing.
    reflexivity.
  - change (String.concat ", " (map repr_int (z :: y :: ids)))
      with (repr_int z ++ ", " ++ String.concat ", " (map repr_int (y :: ids)))
      in *.
    rewrite !chars_app in *. rewrite !length_app in Hfuel.
    change (chars ", ") with [","%char; " "%char] in *.
    cbn [length] in Hfuel. pose proof (repr_length z).
    destruct fuel as [|[|[|fuel]]]; try lia.
    rewrite <- !app_assoc. cbn [app].
    rewrite lex_repr by (left; reflexivity).
    change (lex (S (S fuel)) (","%char :: " "%char :: ?s))
      with (push Comma (lex fuel s)).
    cbn [lex is_ws punctuation Ascii.eqb Bool.eqb orb].
    rewrite IH; [reflexivity|discriminate|lia].
Qed.

Lemma id_tokens_length ids : (length ids <= length (id_tokens ids))%nat.
Proof.
  induction ids as [|z [|y ids] IH]; simpl in *; lia.
Qed.

Lemma parse_value_int fuel z r :
  parse_value (S fuel) (TInt z :: r) = Some (JInt z, r).
Proof. reflexivity. Qed.

Lemma parse_items_ids ids :
  ids <> [] ->
  forall fuel rest,
    (length ids < fuel)%nat ->
    parse_items fuel (id_tokens ids ++ RBracket :: rest)
    = Some (map JInt ids, rest).
Proof.
  induction ids as [|z ids IH]; [contradiction|]. intros _ fuel rest Hfuel.
  destruct ids as [|y ids].
  - destruct fuel as [|[|fuel]]; simpl in Hfuel; try lia. reflexivity.
  - destruct fuel as [|[|fuel]]; simpl in Hfuel; try lia.
    change (id_tokens (z :: y :: ids))
      with (TInt z :: Comma :: id_tokens (y :: ids)).
    cbn [app]. rewrite parse_items_S, parse_value_int.
    rewrite IH; [reflexivity|discriminate|simpl; lia].
Qed.

(** Decoding what [json_dumps] wrote gives back the list of integers. *)
Lemma json_loads_dumps ids :
  json_loads (json_dumps ids) = Ok (JArr (map JInt ids)).
Proof.
  unfold json_loads, json_dumps. rewrite !chars_app.
  change (chars "[") with ["["%char]. change (chars "]") with ["]"%char].
  cbn [app length lex is_ws punctuation Ascii.eqb Bool.eqb orb].
  destruct ids as [|z ids]; [reflexivity|].
  rewrite lex_ids; [|discriminate|rewrite length_app; simpl; lia].
  cbn [push option_map].
  set (ts := (LBracket :: id_tokens (z :: ids) ++ [RBracket])%list).
  assert (length (z :: ids) < 2 * length ts + 1)%nat as Hfuel.
  { subst ts. pose proof (id_tokens_length (z :: ids)) as Hlen.
    remember (id_tokens (z :: ids)) as toks.
    cbn [length] in *. rewrite length_app. cbn [length]. lia. }
  replace (2 * length ts + 2)%nat with (S (2 * length ts + 1)) by lia.
  subst ts. remember (2 * length _ + 1)%nat as fuel.
  assert (exists t rest, id_tokens (z :: ids) = TInt t :: rest)
    as (t & rest & Ht) by (destruct ids; simpl; eauto).
  rewrite Ht. cbn [app parse_value]. rewrite app_comm_cons, <- Ht.
  rewrite parse_items_ids; [reflexivity|discriminate|assumption].
Qed.

End JsonSpec.

(** ** The subscriber store *)
Module StoreSpec.
Import Json Bot.

Lemma py_set_ids ids : py_set (JArr (map JInt ids)) = Ids ids.
Proof.
  unfold py_set.
  assert (List.find unhashable (map JInt ids) = None) as ->
    by (induction ids; simpl; auto).
  assert (all_ints (map JInt ids) = Some ids) as ->
    by (induction ids as [|z ids IH]; simpl; [|rewrite IH]; reflexivity).
  reflexivity.
Qed.

(** Loading a file that holds the text [json_dumps ids]. *)
Lemma load_dumped (w : world) ids :
  subscribers_file w = Some (json_dumps ids) ->
  io_fault w = None ->
  load_subscribers w =
  Some (add_log (Loaded (size (list_to_set ids : gset Z)))
                (set_users (list_to_set ids) w)).
Proof.
  intros Hfile Hio. unfold load_subscribers, load_body, open_file.
  rewrite Hfile, Hio. cbn [bind].
  rewrite JsonSpec.json_loads_dumps. cbn [bind]. rewrite py_set_ids.
  reflexivity.
Qed.

Lemma save_ok order (w : world) :
  io_fault w = None ->
  save_subscribers order w =
  add_log (Saved (size (subscribed_users w)))
          (set_file (json_dumps (order (subscribed_users w))) w).
Proof.
  intros Hio. unfold save_subscribers, save_body.
  rewrite Hio. reflexivity.
Qed.


Section Order.

Variable order : gset Z -> list Z.
Hypothesis order_enumerates : forall s : gset Z, order s ≡ₚ elements s.

Lemma set_of_order (s : gset Z) : list_to_set (order s) = s.
Proof.
  rewrite (list_to_set_perm_L (C:=gset Z) _ _ (order_enumerates s)).
  apply list_to_set_elements_L.
Qed.

Lemma persisted_after_save (w : world) :
  io_fault w = None ->
  persisted (save_subscribers order w) = Some (subscribed_users w).
Proof.
  intros Hio. unfold persisted. rewrite save_ok by assumption.
  rewrite (load_dumped _ (order (subscribed_users w)));
    [|reflexivity|reflexivity].
  simpl. rewrite set_of_order. reflexivity.
Qed.

(** C5. Round trip: let [save_subscribers] write the set [S] held in
    memory (the file system accepting the write); then
    [load_subscribers], run by any process that finds the file as it
    was written and can read it, ends with a set equal to [S]. *)
Theorem C5_save_then_load_round_trip (w w1 : world) :
  io_fault w = None ->
  subscribers_file w1 = subscribers_file (save_subscribers order w) ->
  io_fault w1 = None ->
  exists w2,
    load_subscribers w1 = Some w2 /\
    subscribed_users w2 = subscribed_users w.
Proof.
  intros Hio Hfile Hio1. rewrite save_ok in Hfile by assumption.
  simpl in Hfile.
  rewrite (load_dumped w1 (order (subscribed_users w)) Hfile Hio1).
  eexists. split; [reflexivity|]. simpl. apply set_of_order.
Qed.

(** C7, amended.  For every identifier and every state in which it is
    not yet subscribed: the first [add] answers [true], puts the
    identifier in the set and, the file system accepting the write,
    leaves the enlarged set in durable storage; the second [add]
    answers [false] and changes nothing, so the persisted set and its
    cardinality stay as they were. *)
Theorem C7_add_twice (user_id : Z) (user_name : string) (w : world) :
  user_id ∉ subscribed_users w ->
  let (first, w1) := add order user_id user_name w in
  let (second, w2) := add order user_id user_name w1 in
  first = true /\
  subscribed_users w1 = subscribed_users w ∪ {[user_id]} /\
  (io_fault w = None ->
     persisted w1 = Some (subscribed_users w ∪ {[user_id]})) /\
  second = false /\
  w2 = w1 /\
  option_map size (persisted w2) = option_map size (persisted w1).
Proof.
  intros Hnew. unfold add at 1, subscribe_command.
  destruct (decide (user_id ∈ subscribed_users w)) as [Hin|_];
    [contradiction|].
  set (w1 := add_log _ _).
  assert (subscribed_users w1 = subscribed_users w ∪ {[user_id]}) as Hw1.
  { subst w1. unfold save_subscribers, save_body. simpl.
    destruct (io_fault w); [destruct (io_point w)|]; reflexivity. }
  unfold add, subscribe_command.
  destruct (decide (user_id ∈ subscribed_users w1)) as [_|Hout];
    [|exfalso; apply Hout; rewrite Hw1;
      apply elem_of_union_r, elem_of_singleton; reflexivity].
  repeat split; [assumption|].
  intros Hio. subst w1.
  exact (persisted_after_save
           (set_users (subscribed_users w ∪ {[user_id]}) w) Hio).
Qed.

(** C8. For an identifier that is not in the set, [remove] answers
    [false] and returns the world as it was: the set in memory, the
    file and the log are untouched, so no save took place. *)
Theorem C8_remove_absent (user_id : Z) (user_name : string) (w : world) :
  user_id ∉ subscribed_users w ->
  remove order user_id user_name w = (false, w) /\
  unsubscribe_command order user_id user_name w = (NotSubscribed, w).
Proof.
  intros Hout. unfold remove, unsubscribe_command.
  destruct (decide (user_id ∈ subscribed_users w)); [contradiction|].
  split; reflexivity.
Qed.

End Order.

(** C9. When the subscriber file exists and loading it fails (the file
    cannot be read, its text is not JSON, or the decoded value is not a
    collection), [load_subscribers] returns normally: the set in memory
    becomes empty, whatever it held, and the fault is logged. *)
Theorem C9_load_fault_gives_empty_set (w : world) (e : exn) :
  load_fault w e ->
  exists w',
    load_subscribers w = Some w' /\
    subscribed_users w' = ∅ /\
    log w' = (log w ++ [ErrorLoading e])%list /\
    subscribers_file w' = subscribers_file w.
Proof.
  intros Hfault. exists (set_users ∅ (add_log (ErrorLoading e) w)).
  split; [|repeat split].
  unfold load_subscribers, load_body, open_file.
  destruct Hfault as [text Hf Hio|text Hf Hio Hjson|text v Hf Hio Hjson Hset];
    rewrite Hf, Hio; cbn [bind]; [reflexivity| |].
  - rewrite Hjson. reflexivity.
  - rewrite Hjson. cbn [bind]. rewrite Hset. reflexivity.
Qed.

Lemma C5_witness :
  exists w2,
    load_subscribers (save_subscribers elements three_users) = Some w2 /\
    subscribed_users w2 = subscribed_users three_users.
Proof.
  apply (C5_save_then_load_round_trip
           elements (fun s => Permutation_refl (elements s))
           three_users (save_subscribers elements three_users)).
  - reflexivity.
  - reflexivity.
  - reflexivity.
Defined.

(** C7 as the specification words it: in every state the first [add]
    answers [true].  In a state that already holds the identifier it
    answers [false]. *)
Lemma C7_counterexample :
  5 ∈ subscribed_users (set_users {[5]} (start None)) /\
  fst (add elements 5 "Ann" (set_users {[5]} (start None))) = false.
Proof.
  split; [apply (bool_decide_unpack _); vm_compute; exact I|].
  vm_compute. reflexivity.
Qed.

Lemma C7_witness :
  let (first, w1) := add elements 5 "Ann" (start None) in
  let (second, w2) := add elements 5 "Ann" w1 in
  first = true /\
  subscribed_users w1 = subscribed_users (start None) ∪ {[5]} /\
  (io_fault (start None) = None ->
     persisted w1 = Some (subscribed_users (start None) ∪ {[5]})) /\
  second = false /\
  w2 = w1 /\
  option_map size (persisted w2) = option_map size (persisted w1).
Proof.
  apply (C7_add_twice elements (fun s => Permutation_refl (elements s))
                      5 "Ann" (start None)).
  apply not_elem_of_empty.
Defined.

Lemma C8_witness :
  remove elements 9 "Ann" three_users = (false, three_users) /\
  unsubscribe_command elements 9 "Ann" three_users
  = (NotSubscribed, three_users).
Proof.
  apply (C8_remove_absent elements 9 "Ann" three_users).
  apply (bool_decide_unpack _). vm_compute. exact I.
Defined.

Lemma C9_witness :
  exists w',
    load_subscribers truncated_file = Some w' /\
    subscribed_users w' = ∅ /\
    log w' = (log truncated_file ++ [ErrorLoading JSONDecodeError])%list /\
    subscribers_file w' = subscribers_file truncated_file.
Proof.
  apply (C9_load_fault_gives_empty_set truncated_file JSONDecodeError).
  apply (unparseable truncated_file JSONDecodeError "[1, 2").
  - reflexivity.
  - reflexivity.
  - vm_compute. reflexivity.
Defined.

(** Other texts a damaged file may hold. *)
Example corrupted_texts :
  json_loads EmptyString = Raise JSONDecodeError /\
  json_loads "[1, 2,]" = Raise JSONDecodeError /\
  json_loads "[1 2]" = Raise JSONDecodeError /\
  json_loads "subscribers" = Raise JSONDecodeError /\
  json_loads "[1, 2]]" = Raise JSONDecodeError.
Proof. repeat split; vm_compute; reflexivity. Qed.

(** A well-formed text of another shape is loaded by the program as it is
    (here a set that holds a float); such a set is not represented. *)
Example text_of_another_shape :
  json_loads "[1, 2.5]" = Ok (JArr [JInt 1; JReal (chars "2.5")]) /\
  load_subscribers (start (Some "[1, 2.5]")) = None.
Proof. split; vm_compute; reflexivity. Qed.

(** A file holding a JSON number is decoded, and [set()] rejects it. *)
Example number_is_not_a_collection :
  exists e, load_fault (start (Some "42")) e.
Proof.
  eexists. apply (not_a_collection _ _ "42" (JInt 42));
    vm_compute; reflexivity.
Qed.

End StoreSpec.

(** ** The daily broadcast *)
Module BroadcastSpec.
Import Bot.

Lemma filter_length_perm {A : Type} (f : A -> bool) (l k : list A) :
  l ≡ₚ k -> length (List.filter f l) = length (List.filter f k).
Proof.
  induction 1 as [|x l k _ IH|x y l|l k j _ IH1 _ IH2]; simpl.
  - reflexivity.
  - destruct (f x); simpl; congruence.
  - destruct (f x), (f y); reflexivity.
  - congruence.
Qed.

Lemma filter_split_length {A : Type} (f : A -> bool) (l : list A) :
  (length (List.filter f l) + length (List.filter (fun x => negb (f x)) l)
   = length l)%nat.
Proof.
  induction l as [|x l IH]; simpl; [reflexivity|].
  destruct (f x); simpl; lia.
Qed.

Lemma send_loop_cons deliver user_id rest (m : message) sc fc (w : world) :
  send_loop deliver (user_id :: rest) m sc fc w =
  match send_message deliver user_id m w with
  | (Ok _, w1) => send_loop deliver rest m (S sc) fc w1
  | (Raise e, w1) =>
      send_loop deliver rest m sc (S fc) (add_log (FailedToSend user_id e) w1)
  end.
Proof. reflexivity. Qed.

Lemma send_message_fault deliver user_id (m : message) (w : world) e :
  deliver user_id = Some e ->
  send_message deliver user_id m w = (Raise e, add_call user_id w).
Proof. intros H. unfold send_message. rewrite H. reflexivity. Qed.

Lemma send_message_ok deliver user_id (m : message) (w : world) :
  deliver user_id = None ->
  send_message deliver user_id m w
  = (Ok tt, add_sent user_id m (add_call user_id w)).
Proof. intros H. unfold send_message. rewrite H. reflexivity. Qed.

Lemma delivered_fault (deliver : Z -> option exn) user_id e :
  deliver user_id = Some e -> delivered deliver user_id = false.
Proof. intros H. unfold delivered. rewrite H. reflexivity. Qed.

Lemma delivered_ok (deliver : Z -> option exn) user_id :
  deliver user_id = None -> delivered deliver user_id = true.
Proof. intros H. unfold delivered. rewrite H. reflexivity. Qed.

(** What the loop does to the counters and to the world. *)
Lemma send_loop_spec deliver (m : message) (snapshot : list Z) :
  forall success_count failed_count (w : world),
  exists w',
    send_loop deliver snapshot m success_count failed_count w =
      ((success_count
          + length (List.filter (delivered deliver) snapshot))%nat,
       (failed_count
          + length (List.filter (fun x => negb (delivered deliver x))
                                snapshot))%nat,
       w') /\
    calls w' = (calls w ++ snapshot)%list /\
    outbox w' =
      (outbox w ++
       map (fun user_id => (user_id, m))
           (List.filter (delivered deliver) snapshot))%list /\
    subscribed_users w' = subscribed_users w /\
    subscribers_file w' = subscribers_file w.
Proof.
  induction snapshot as [|user_id rest IH]; intros sc fc w.
  - exists w. simpl. rewrite !Nat.add_0_r, !app_nil_r. auto.
  - rewrite send_loop_cons. cbn [List.filter].
    destruct (deliver user_id) as [e|] eqn:E.
    + rewrite (send_message_fault _ _ _ _ e E), (delivered_fault _ _ e E).
      cbn [negb].
      destruct (IH sc (S fc) (add_log (FailedToSend user_id e)
                                      (add_call user_id w)))
        as (w' & Hrun & Hcalls & Hout & Hset & Hfile).
      exists w'. rewrite Hrun, Hcalls, Hout, Hset, Hfile.
      cbn [length calls outbox add_log add_call subscribed_users
           subscribers_file].
      rewrite <- app_assoc. repeat split. f_equal. f_equal. lia.
    + rewrite (send_message_ok _ _ _ _ E), (delivered_ok _ _ E).
      cbn [negb].
      destruct (IH (S sc) fc (add_sent user_id m (add_call user_id w)))
        as (w' & Hrun & Hcalls & Hout & Hset & Hfile).
      exists w'. rewrite Hrun, Hcalls, Hout, Hset, Hfile.
      cbn [length calls outbox add_sent add_call subscribed_users
           subscribers_file map].
      rewrite <- !app_assoc. repeat split. f_equal. f_equal. lia.
Qed.

Lemma three_recipients (deliver : Z -> option exn) (a b c : Z) (e : exn)
    (snapshot : list Z) :
  a <> b -> a <> c -> b <> c ->
  snapshot ≡ₚ elements ({[a; b; c]} : gset Z) ->
  deliver a = Some e -> deliver b = None -> deliver c = None ->
  length (List.filter (delivered deliver) snapshot) = 2%nat /\
  length (List.filter (fun x => negb (delivered deliver x)) snapshot) = 1%nat.
Proof.
  intros Hab Hac Hbc Hperm Ha Hb Hc.
  assert (snapshot ≡ₚ [a; b; c]) as Hp.
  { rewrite Hperm, <- (assoc_L (∪)).
    rewrite elements_union_singleton.
    - rewrite elements_union_singleton.
      + rewrite elements_singleton. reflexivity.
      + intros Hin%elem_of_singleton. contradiction.
    - intros [Hin|Hin]%elem_of_union; apply elem_of_singleton in Hin;
        contradiction. }
  rewrite (filter_length_perm _ _ _ Hp), (filter_length_perm _ _ _ Hp).
  simpl. unfold delivered. rewrite Ha, Hb, Hc. split; reflexivity.
Qed.

(** C4. The loop over a copy of the subscriber set, for any set, any
    iteration order and any delivery outcomes: [send_message] is called
    once for every recipient, in iteration order, whether or not earlier
    sends faulted; every recipient whose send does not fault gets the
    message; the counters are the numbers of delivered and of faulted
    sends.  With three recipients of which one faults, the tally is
    2 succeeded and 1 failed wherever the faulting recipient comes in the
    order. *)
Theorem C4_delivery_faults_are_isolated
    (deliver : Z -> option exn) (m : message)
    (users : gset Z) (snapshot : list Z) (w : world) :
  snapshot ≡ₚ elements users ->
  let '(success_count, failed_count, w') := broadcast deliver m snapshot w in
  calls w' = (calls w ++ snapshot)%list /\
  NoDup snapshot /\
  (forall user_id, user_id ∈ users <-> user_id ∈ snapshot) /\
  outbox w' =
    (outbox w ++
     map (fun user_id => (user_id, m))
         (List.filter (delivered deliver) snapshot))%list /\
  success_count = length (List.filter (delivered deliver) snapshot) /\
  failed_count =
    length (List.filter (fun x => negb (delivered deliver x)) snapshot) /\
  (forall a b c e,
      a <> b -> a <> c -> b <> c -> users = {[a; b; c]} ->
      deliver a = Some e -> deliver b = None -> deliver c = None ->
      (success_count, failed_count) = (2%nat, 1%nat)).
Proof.
  intros Hperm. unfold broadcast.
  destruct (send_loop_spec deliver m snapshot 0 0 w)
    as (w' & -> & Hcalls & Hout & _ & _).
  cbn [Nat.add]. repeat split; try assumption.
  - rewrite Hperm. apply NoDup_elements.
  - rewrite Hperm. intros H. apply elem_of_elements. assumption.
  - rewrite Hperm. intros H. apply elem_of_elements in H. assumption.
  - intros a b c e Hab Hac Hbc -> Ha Hb Hc.
    destruct (three_recipients deliver a b c e snapshot) as [-> ->]; auto.
Qed.

Section Variant.

Context {N : Type}.
Variable order : gset Z -> list Z.
Hypothesis order_enumerates : forall s : gset Z, order s ≡ₚ elements s.
Variable scrape_aud_rate : N -> Rate * N.
Variable deliver : Z -> option exn.
Variable during_fetch : world -> world.
Variable current_time : string.

(** C10. Started with a non-empty subscriber set, [send_daily_rate]
    reaches the delivery loop; with [n] the number of recipients in the
    copy of the set taken when the loop starts, the logged tally
    satisfies succeeded + failed = n: the loop calls [send_message]
    once per recipient of the copy, and each call adds one to exactly
    one of the two counters. *)
Theorem C10_tally_accounts_for_every_recipient (n : N) (w : world) :
  subscribed_users w <> ∅ ->
  let w1 := at_snapshot during_fetch w in
  let snapshot := order (subscribed_users w1) in
  exists success_count failed_count w' n',
    send_daily_rate order scrape_aud_rate deliver during_fetch
                    current_time n w
    = (Some (success_count, failed_count), w', n') /\
    (success_count + failed_count = length snapshot)%nat /\
    length snapshot = size (subscribed_users w1) /\
    NoDup snapshot /\
    calls w' = (calls w1 ++ snapshot)%list /\
    success_count = length (List.filter (delivered deliver) snapshot) /\
    failed_count =
      length (List.filter (fun x => negb (delivered deliver x)) snapshot) /\
    last (log w') = Some (DailyRateSent success_count failed_count).
Proof.
  intros Hne w1 snapshot. unfold send_daily_rate.
  destruct (decide (subscribed_users w = ∅)) as [Hempty|_];
    [contradiction|].
  destruct (scrape_aud_rate n) as [result n'] eqn:Hfetch.
  fold w1. fold snapshot.
  destruct (send_loop_spec deliver (result, current_time) snapshot 0 0 w1)
    as (w' & Hrun & Hcalls & _ & _ & _).
  rewrite Hrun. cbn [Nat.add].
  eexists _, _, _, _. split; [reflexivity|].
  repeat split.
  - apply filter_split_length.
  - subst snapshot. rewrite (order_enumerates _). reflexivity.
  - subst snapshot. rewrite (order_enumerates _). apply NoDup_elements.
  - assumption.
  - cbn [log add_log]. apply last_snoc.
Qed.

End Variant.

Lemma C4_witness :
  let m : message := (failure "Request timeout. Please try again later.",
                      "2024-01-01 09:00:00") in
  let '(success_count, failed_count, w') :=
    broadcast (blocked_by 5) m [7; 5; 9] (start None) in
  calls w' = (calls (start None) ++ [7; 5; 9])%list /\
  NoDup [7; 5; 9] /\
  (forall user_id, user_id ∈ ({[5; 7; 9]} : gset Z) <-> user_id ∈ [7; 5; 9]) /\
  outbox w' =
    (outbox (start None) ++
     map (fun user_id => (user_id, m))
         (List.filter (delivered (blocked_by 5)) [7; 5; 9]))%list /\
  success_count = length (List.filter (delivered (blocked_by 5)) [7; 5; 9]) /\
  failed_count =
    length (List.filter (fun x => negb (delivered (blocked_by 5) x))
                        [7; 5; 9]) /\
  (forall a b c e,
      a <> b -> a <> c -> b <> c -> ({[5; 7; 9]} : gset Z) = {[a; b; c]} ->
      blocked_by 5 a = Some e -> blocked_by 5 b = None ->
      blocked_by 5 c = None ->
      (success_count, failed_count) = (2%nat, 1%nat)).
Proof.
  apply (C4_delivery_faults_are_isolated
           (blocked_by 5)
           (failure "Request timeout. Please try again later.",
            "2024-01-01 09:00:00")
           {[5; 7; 9]} [7; 5; 9] (start None)).
  apply (bool_decide_unpack _). vm_compute. exact I.
Defined.

Lemma C10_witness :
  (exists success_count failed_count w' n',
      send_daily_rate elements (Api.scrape_aud_rate Api.type_name)
                      (blocked_by 1) (fun w => w) "2024-01-01 09:00:00"
                      (Api.serving (Api.rates_body (Api.PInt 16500)))
                      three_users
      = (Some (success_count, failed_count), w', n') /\
      (success_count + failed_count
       = length (elements (subscribed_users
                             (at_snapshot (fun w => w) three_users))))%nat /\
      length (elements (subscribed_users
                          (at_snapshot (fun w => w) three_users)))
      = size (subscribed_users (at_snapshot (fun w => w) three_users)) /\
      NoDup (elements (subscribed_users
                         (at_snapshot (fun w => w) three_users))) /\
      calls w' =
        (calls (at_snapshot (fun w => w) three_users) ++
         elements (subscribed_users
                     (at_snapshot (fun w => w) three_users)))%list /\
      success_count =
        length (List.filter (delivered (blocked_by 1))
                  (elements (subscribed_users
                               (at_snapshot (fun w => w) three_users)))) /\
      failed_count =
        length (List.filter (fun x => negb (delivered (blocked_by 1) x))
                  (elements (subscribed_users
                               (at_snapshot (fun w => w) three_users)))) /\
      last (log w') = Some (DailyRateSent success_count failed_count)) /\
  (exists success_count failed_count w' n',
      send_daily_rate elements Webgia.scrape_aud_rate
                      (blocked_by 1) (fun w => w) "2024-01-01 09:00:00"
                      (Webgia.serving (Some [Webgia.example_row]))
                      three_users
      = (Some (success_count, failed_count), w', n') /\
      (success_count + failed_count
       = length (elements (subscribed_users
                             (at_snapshot (fun w => w) three_users))))%nat /\
      length (elements (subscribed_users
                          (at_snapshot (fun w => w) three_users)))
      = size (subscribed_users (at_snapshot (fun w => w) three_users)) /\
      NoDup (elements (subscribed_users
                         (at_snapshot (fun w => w) three_users))) /\
      calls w' =
        (calls (at_snapshot (fun w => w) three_users) ++
         elements (subscribed_users
                     (at_snapshot (fun w => w) three_users)))%list /\
      success_count =
        length (List.filter (delivered (blocked_by 1))
                  (elements (subscribed_users
                               (at_snapshot (fun w => w) three_users)))) /\
      failed_count =
        length (List.filter (fun x => negb (delivered (blocked_by 1) x))
                  (elements (subscribed_users
                               (at_snapshot (fun w => w) three_users)))) /\
      last (log w') = Some (DailyRateSent success_count failed_count)).
Proof.
  split.
  - apply (C10_tally_accounts_for_every_recipient
             elements (fun s => Permutation_refl (elements s))
             (Api.scrape_aud_rate Api.type_name)
             (blocked_by 1) (fun w => w) "2024-01-01 09:00:00"
             (Api.serving (Api.rates_body (Api.PInt 16500))) three_users).
    apply (bool_decide_unpack _). vm_compute. exact I.
  - apply (C10_tally_accounts_for_every_recipient
             elements (fun s => Permutation_refl (elements s))
             Webgia.scrape_aud_rate
             (blocked_by 1) (fun w => w) "2024-01-01 09:00:00"
             (Webgia.serving (Some [Webgia.example_row])) three_users).
    apply (bool_decide_unpack _). vm_compute. exact I.
Defined.

(** The tally of the run above in the markup-scrape variant. *)
Example daily_run_tally :
  fst (fst (send_daily_rate elements Webgia.scrape_aud_rate
              (blocked_by 1) (fun w => w) "2024-01-01 09:00:00"
              (Webgia.serving (Some [Webgia.example_row])) three_users))
  = Some (2%nat, 1%nat).
Proof. vm_compute. reflexivity. Qed.

End BroadcastSpec.

(* ================================================================== *)
(** * Further properties of the code *)

(** ** Text lemmas *)
Module TextFacts.

Lemma prefix_app (x b : string) : String.prefix x (x ++ b) = true.
Proof.
  induction x as [|c x IH]; simpl; [destruct b; reflexivity|].
  destruct (ascii_dec c c) as [_|Hne]; [assumption|contradiction].
Qed.

Lemma contains_unfold (x s : string) :
  contains x s =
  String.prefix x s ||
  match s with
  | EmptyString => false
  | String _ rest => contains x rest
  end.
Proof. destruct s; reflexivity. Qed.

Lemma contains_tail (x : string) : forall a : string,
  contains x a = true -> forall c, contains x (String c a) = true.
Proof.
  intros a H c. cbn [contains]. rewrite H. apply orb_true_r.
Qed.

(** A text contains each of the parts it is concatenated from. *)
Lemma contains_app (x a b : string) : contains x (a ++ x ++ b) = true.
Proof.
  induction a as [|c a IH].
  - change (String.append EmptyString (String.append x b))
      with (String.append x b).
    rewrite contains_unfold, prefix_app. reflexivity.
  - change (String.append (String c a) (String.append x b))
      with (String c (String.append a (String.append x b))).
    apply contains_tail. assumption.
Qed.

Lemma text_app (a b : list ascii) :
  string_of_list_ascii (a ++ b)%list =
  string_of_list_ascii a ++ string_of_list_ascii b.
Proof. induction a as [|c a IH]; simpl; [|rewrite IH]; reflexivity. Qed.

Lemma upper_app (a b : string) : upper (a ++ b) = upper a ++ upper b.
Proof.
  unfold upper. rewrite JsonSpec.chars_app, map_app, text_app. reflexivity.
Qed.

End TextFacts.

(** ** Markup-scrape variant: which row decides *)
Module WebgiaMore.
Import Webgia.

Lemma scan_rows_filter rows :
  scan_rows (List.filter is_aud_row rows) = scan_rows rows.
Proof.
  induction rows as [|cells rest IH]; [reflexivity|].
  cbn [List.filter]. unfold is_aud_row at 1.
  rewrite (WebgiaSpec.scan_rows_cons cells rest).
  destruct (6 <=? length cells)%nat eqn:E6; cbn [andb]; [|assumption].
  destruct (contains "AUD" (upper (nth 0 cells EmptyString))) eqn:EA;
    [|assumption].
  rewrite WebgiaSpec.scan_rows_cons, E6, EA, IH. reflexivity.
Qed.

(** X1. The rate comes from the first row, in document order, that has at
    least 6 cells, "AUD" in its first cell and a 6th cell with something
    left after cleaning; rows after it are never looked at. *)
Theorem X1_first_valid_row_wins
    (n : net page) (before after : table) (cells : row) :
  replies n (requests n) =
    Ok (mkResponse 200 (Ok (Some (before ++ cells :: after)%list))) ->
  (forall i earlier, before !! i = Some earlier ->
     is_aud_row earlier = true ->
     valid_rate (clean_rate (nth 5 earlier EmptyString)) = false) ->
  is_aud_row cells = true ->
  valid_rate (clean_rate (nth 5 cells EmptyString)) = true ->
  fst (scrape_aud_rate n) = found (clean_rate (nth 5 cells EmptyString)).
Proof.
  intros Hn Hbefore Haud Hvalid.
  rewrite (WebgiaSpec.scrape_on_page n _ Hn). cbn [scrape_page].
  rewrite (WebgiaSpec.scan_rows_app before _
             (WebgiaSpec.scan_rows_None before Hbefore)).
  rewrite WebgiaSpec.scan_rows_cons.
  unfold is_aud_row in Haud. apply andb_true_iff in Haud.
  destruct Haud as [-> ->]. rewrite Hvalid. reflexivity.
Qed.

Lemma X1_witness :
  fst (scrape_aud_rate
         (serving (Some ([["AUD"; "a"; "b"; "c"; "d"; "-"]] ++
                         ["Aud"; "a"; "b"; "c"; "d"; "16.320 VND"] ::
                         [["AUD"; "a"; "b"; "c"; "d"; "17.000"]])%list)))
  = found (clean_rate
             (nth 5 ["Aud"; "a"; "b"; "c"; "d"; "16.320 VND"] EmptyString)).
Proof.
  apply (X1_first_valid_row_wins
           (serving (Some ([["AUD"; "a"; "b"; "c"; "d"; "-"]] ++
                           ["Aud"; "a"; "b"; "c"; "d"; "16.320 VND"] ::
                           [["AUD"; "a"; "b"; "c"; "d"; "17.000"]])%list))
           [["AUD"; "a"; "b"; "c"; "d"; "-"]]
           [["AUD"; "a"; "b"; "c"; "d"; "17.000"]]
           ["Aud"; "a"; "b"; "c"; "d"; "16.320 VND"]).
  - reflexivity.
  - intros [|[|i]] earlier H; try discriminate H.
    injection H as <-. reflexivity.
  - reflexivity.
  - reflexivity.
Defined.

(** X2. Rows with fewer than 6 cells and rows whose first cell does not
    contain "AUD" have no influence: two pages with the same AUD rows, in
    the same order, give the same result. *)
Theorem X2_other_rows_do_not_matter (n1 n2 : net page) (rows1 rows2 : table) :
  replies n1 (requests n1) = Ok (mkResponse 200 (Ok (Some rows1))) ->
  replies n2 (requests n2) = Ok (mkResponse 200 (Ok (Some rows2))) ->
  List.filter is_aud_row rows1 = List.filter is_aud_row rows2 ->
  fst (scrape_aud_rate n1) = fst (scrape_aud_rate n2).
Proof.
  intros H1 H2 Hsame.
  rewrite (WebgiaSpec.scrape_on_page n1 _ H1),
          (WebgiaSpec.scrape_on_page n2 _ H2).
  cbn [scrape_page].
  rewrite <- (scan_rows_filter rows1), <- (scan_rows_filter rows2), Hsame.
  reflexivity.
Qed.

Lemma X2_witness :
  fst (scrape_aud_rate
         (serving (Some [["Currency"; "Name"]; example_row;
                         ["AUD"; "short row"]])))
  = fst (scrape_aud_rate (serving (Some [example_row]))).
Proof.
  apply (X2_other_rows_do_not_matter
           (serving (Some [["Currency"; "Name"]; example_row;
                           ["AUD"; "short row"]]))
           (serving (Some [example_row]))
           [["Currency"; "Name"]; example_row; ["AUD"; "short row"]]
           [example_row]).
  - reflexivity.
  - reflexivity.
  - reflexivity.
Defined.

(** X3. Whatever the upstream sends, a successful result of the
    markup-scrape fetch carries a rate that is not empty and is made of
    decimal digits (of any script), commas and full stops only, with
    currency "AUD" and no error. *)
Theorem X3_success_carries_a_clean_rate (n : net page) :
  success (fst (scrape_aud_rate n)) = true ->
  exists r,
    rate (fst (scrape_aud_rate n)) = Some r /\
    r <> EmptyString /\
    r = join (map snd (characters r)) /\
    Forall (fun ch => rate_char (fst ch) = true) (characters r) /\
    currency (fst (scrape_aud_rate n)) = Some "AUD" /\
    error (fst (scrape_aud_rate n)) = None.
Proof.
  unfold scrape_aud_rate, session_get. cbn [fst].
  destruct (replies n (requests n)) as [r|e]; cbn [fetch_body bind];
    [|destruct e; discriminate].
  destruct (status r =? 200); [|discriminate].
  destruct (body r) as [p|e]; cbn [bind]; [|destruct e; discriminate].
  destruct p as [rows|]; cbn [scrape_page handle_fetch]; [|discriminate].
  destruct (scan_rows rows) as [x|] eqn:Hscan; [|discriminate].
  intros _. apply WebgiaSpec.scan_rows_Some in Hscan.
  destruct Hscan as (i & cells & _ & _ & -> & Hvalid).
  apply WebgiaSpec.valid_rate_spec in Hvalid. destruct Hvalid as [Hne _].
  eexists. split; [reflexivity|]. split; [assumption|].
  split; [|split; [apply WebgiaSpec.clean_rate_chars|split; reflexivity]].
  pose proof (WebgiaSpec.clean_rate_idem (nth 5 cells EmptyString)) as H.
  unfold clean_rate at 1 in H.
  rewrite (WebgiaSpec.filter_all_true _ _ (WebgiaSpec.clean_rate_chars _))
    in H.
  symmetry. exact H.
Qed.

Lemma X3_witness :
  exists r,
    rate (fst (scrape_aud_rate (serving (Some [example_row])))) = Some r /\
    r <> EmptyString /\
    r = join (map snd (characters r)) /\
    Forall (fun ch => rate_char (fst ch) = true) (characters r) /\
    currency (fst (scrape_aud_rate (serving (Some [example_row]))))
    = Some "AUD" /\
    error (fst (scrape_aud_rate (serving (Some [example_row])))) = None.
Proof.
  apply (X3_success_carries_a_clean_rate (serving (Some [example_row]))).
  vm_compute. reflexivity.
Defined.

(** A 6th cell written in full-width digits is a rate: the first row is
    the one the loop returns from, and the digits come back as they are
    on the page (the full-width full stop is not in the class). *)
Example full_width_rate_found :
  fst (scrape_aud_rate
         (serving (Some [["AUD"; "a"; "b"; "c"; "d"; "１６．３２０ VND"];
                         ["AUD"; "a"; "b"; "c"; "d"; "17.000"]])))
  = found "１６３２０".
Proof. vm_compute. reflexivity. Qed.

(** X4. The currency test is a case-insensitive substring test: a row of at
    least 6 cells is taken for the AUD row as soon as its first cell holds
    the three letters, in any letter case, anywhere in its text. *)
Theorem X4_currency_code_in_any_case
    (code before after : string) (others : row) :
  upper code = "AUD" ->
  (5 <= length others)%nat ->
  is_aud_row ((before ++ code ++ after) :: others) = true.
Proof.
  intros Hcode Hlen. unfold is_aud_row. cbn [nth length].
  rewrite !TextFacts.upper_app, Hcode, TextFacts.contains_app, andb_true_r.
  apply Nat.leb_le. lia.
Qed.

Lemma X4_witness :
  is_aud_row (("1 " ++ "aUd" ++ " (Australia)")
              :: ["Australian Dollar"; "a"; "b"; "c"; "16,000"]) = true.
Proof.
  apply (X4_currency_code_in_any_case
           "aUd" "1 " " (Australia)"
           ["Australian Dollar"; "a"; "b"; "c"; "16,000"]).
  - reflexivity.
  - simpl. lia.
Defined.

End WebgiaMore.

(** ** Structured-API variant: which replies succeed, and how the others
    are reported *)
Module ApiMore.
Import Api.

Lemma eq_str_true v s : eq_str v s = true -> v = PStr s.
Proof.
  destruct v; try discriminate. simpl. intros H.
  apply String.eqb_eq in H. congruence.
Qed.

(** X5. The structured-API fetch reports success only when the reply has
    status 200, its body is a dict whose "result" is the string "success"
    and whose "rates" is a dict with a "VND" value that is true in a
    condition and that the format accepts; the rate is that value
    formatted. *)
Theorem X5_success_needs_a_successful_reply
    (py_str : pyval -> string) (n : net pyval) :
  success (fst (scrape_aud_rate py_str n)) = true ->
  exists r d rates v text,
    replies n (requests n) = Ok r /\ status r = 200 /\
    body r = Ok (PDict d) /\
    d !! "result" = Some (PStr "success") /\
    d !! "rates" = Some (PDict rates) /\
    rates !! "VND" = Some v /\ truthy v = true /\
    format_2f v = Ok text /\
    fst (scrape_aud_rate py_str n) = found text.
Proof.
  unfold scrape_aud_rate, session_get. cbn [fst].
  destruct (replies n (requests n)) as [r|e]; cbn [fetch_body bind];
    [|destruct e; discriminate].
  destruct (status r =? 200) eqn:Est; [|discriminate].
  apply Z.eqb_eq in Est.
  destruct (body r) as [data|e] eqn:Ebody; cbn [bind];
    [|destruct e; discriminate].
  unfold scrape_data.
  destruct data as [| | | | | |d]; cbn [py_get bind];
    try discriminate.
  destruct (d !! "result") as [res|] eqn:Eres; [|discriminate].
  destruct (eq_str res "success") eqn:Eeq; [|discriminate].
  apply eq_str_true in Eeq. subst res.
  destruct (d !! "rates") as [x|] eqn:Erates.
  - destruct x as [| | | | | |rates]; cbn [py_get bind]; try discriminate.
    destruct (rates !! "VND") as [v|] eqn:Evnd; [|discriminate].
    destruct (truthy v) eqn:Etruthy; [|discriminate].
    destruct (format_2f v) as [text|e] eqn:Efmt; cbn [bind handle_fetch];
      [|destruct e; discriminate].
    intros _. exists r, d, rates, v, text.
    repeat split; first [assumption|reflexivity].
  - cbn [py_get bind]. rewrite lookup_empty. discriminate.
Qed.

Lemma X5_witness :
  exists r d rates v text,
    replies (serving (rates_body (PInt 16500)))
            (requests (serving (rates_body (PInt 16500)))) = Ok r /\
    status r = 200 /\
    body r = Ok (PDict d) /\
    d !! "result" = Some (PStr "success") /\
    d !! "rates" = Some (PDict rates) /\
    rates !! "VND" = Some v /\ truthy v = true /\
    format_2f v = Ok text /\
    fst (scrape_aud_rate type_name (serving (rates_body (PInt 16500))))
    = found text.
Proof.
  apply (X5_success_needs_a_successful_reply
           type_name (serving (rates_body (PInt 16500)))).
  vm_compute. reflexivity.
Defined.

(** X6. In a reply with status 200 and result "success", a "VND" value
    that is absent (the "rates" key absent, or the mapping without "VND")
    or false in a condition (null, false, 0, 0.0, an empty string, list or
    dict) is reported as "VND rate not found in API response". *)
Theorem X6_absent_or_false_rate_is_not_found
    (py_str : pyval -> string) (n : net pyval) (d : gmap string pyval) :
  replies n (requests n) = Ok (mkResponse 200 (Ok (PDict d))) ->
  d !! "result" = Some (PStr "success") ->
  (d !! "rates" = None \/
   exists rates, d !! "rates" = Some (PDict rates) /\
     (rates !! "VND" = None \/
      exists v, rates !! "VND" = Some v /\ truthy v = false)) ->
  fst (scrape_aud_rate py_str n) =
  failure "VND rate not found in API response".
Proof.
  intros Hn Hres Hvnd. rewrite (ApiSpec.scrape_on_body py_str n _ Hn).
  unfold scrape_data. cbn [py_get bind]. rewrite Hres.
  cbn [eq_str String.eqb Ascii.eqb Bool.eqb].
  destruct Hvnd as [Hrates|(rates & Hrates & [Hnone|(v & Hv & Hfalse)])];
    rewrite Hrates; cbn [py_get bind].
  - rewrite lookup_empty. reflexivity.
  - rewrite Hnone. reflexivity.
  - rewrite Hv, Hfalse. reflexivity.
Qed.

Lemma X6_witness :
  fst (scrape_aud_rate type_name (serving (rates_body (PStr EmptyString))))
  = failure "VND rate not found in API response".
Proof.
  apply (X6_absent_or_false_rate_is_not_found
           type_name (serving (rates_body (PStr EmptyString)))
           (<["result" := PStr "success"]>
              (<["rates" := PDict (<["VND" := PStr EmptyString]> ∅)]> ∅))).
  - reflexivity.
  - vm_compute. reflexivity.
  - right. exists (<["VND" := PStr EmptyString]> ∅). split.
    + vm_compute. reflexivity.
    + right. exists (PStr EmptyString). split; vm_compute; reflexivity.
Defined.

(** X7. In a reply with status 200 whose "result" is absent or is not the
    string "success", the error is "API error: " followed by the reply's
    "error-type", or by "Unknown error" when the reply has none; the rates
    are not looked at. *)
Theorem X7_upstream_error_is_passed_on
    (py_str : pyval -> string) (n : net pyval) (d : gmap string pyval) :
  replies n (requests n) = Ok (mkResponse 200 (Ok (PDict d))) ->
  (forall v, d !! "result" = Some v -> eq_str v "success" = false) ->
  fst (scrape_aud_rate py_str n) =
  failure ("API error: " ++
           py_str (match d !! "error-type" with
                   | Some x => x
                   | None => PStr "Unknown error"
                   end)).
Proof.
  intros Hn Hres. rewrite (ApiSpec.scrape_on_body py_str n _ Hn).
  unfold scrape_data. cbn [py_get bind].
  assert (eq_str (match d !! "result" with
                  | Some x => x
                  | None => PNone
                  end) "success" = false) as ->
    by (destruct (d !! "result") as [v|]; [apply Hres|]; reflexivity).
  reflexivity.
Qed.

Lemma X7_witness :
  fst (scrape_aud_rate Handlers.text_of
         (serving (PDict (<["result" := PStr "error"]> ∅))))
  = failure ("API error: " ++
             Handlers.text_of
               (match (<["result" := PStr "error"]> ∅ : gmap string pyval)
                        !! "error-type" with
                | Some x => x
                | None => PStr "Unknown error"
                end)).
Proof.
  apply (X7_upstream_error_is_passed_on
           Handlers.text_of
           (serving (PDict (<["result" := PStr "error"]> ∅)))
           (<["result" := PStr "error"]> ∅)).
  - reflexivity.
  - intros v H.
    assert ((<["result" := PStr "error"]> ∅ : gmap string pyval) !! "result"
            = Some (PStr "error")) as E by (vm_compute; reflexivity).
    rewrite E in H. injection H as <-. reflexivity.
Defined.

(** The message of the run above. *)
Example unknown_error_message :
  error (fst (scrape_aud_rate Handlers.text_of
                (serving (PDict (<["result" := PStr "error"]> ∅)))))
  = Some "API error: Unknown error".
Proof. vm_compute. reflexivity. Qed.

(** X8. A body that is not a dict, and a "rates" value that is present but
    is not a dict (null included: the default applies to an absent key
    only), make the lookup raise; the fetch reports
    "Error: '<type>' object has no attribute 'get'". *)
Theorem X8_wrong_shape_is_an_error
    (py_str : pyval -> string) (n : net pyval) (data v : pyval) :
  replies n (requests n) = Ok (mkResponse 200 (Ok data)) ->
  (forall d, v <> PDict d) ->
  (data = v \/
   exists d, data = PDict d /\ d !! "result" = Some (PStr "success") /\
             d !! "rates" = Some v) ->
  fst (scrape_aud_rate py_str n) =
  failure ("Error: '" ++ type_name v ++ "' object has no attribute 'get'").
Proof.
  intros Hn Hv Hwhere. rewrite (ApiSpec.scrape_on_body py_str n _ Hn).
  assert (forall key default,
             py_get v key default =
             Raise (Error ("'" ++ type_name v
                           ++ "' object has no attribute 'get'"))) as Hget.
  { intros key default. destruct v; try reflexivity.
    exfalso. exact (Hv _ eq_refl). }
  unfold scrape_data.
  destruct Hwhere as [->|(d & -> & Hres & Hrates)].
  - rewrite Hget. reflexivity.
  - cbn [py_get bind]. rewrite Hres.
    cbn [eq_str String.eqb Ascii.eqb Bool.eqb]. rewrite Hrates.
    cbn [bind]. rewrite Hget. reflexivity.
Qed.

Lemma X8_witness :
  fst (scrape_aud_rate type_name
         (serving (PDict (<["result" := PStr "success"]>
                            (<["rates" := PNone]> ∅)))))
  = failure ("Error: '" ++ type_name PNone
             ++ "' object has no attribute 'get'").
Proof.
  apply (X8_wrong_shape_is_an_error
           type_name
           (serving (PDict (<["result" := PStr "success"]>
                              (<["rates" := PNone]> ∅))))
           (PDict (<["result" := PStr "success"]> (<["rates" := PNone]> ∅)))
           PNone).
  - reflexivity.
  - intros d H. discriminate H.
  - right. eexists. split; [reflexivity|]. split; vm_compute; reflexivity.
Defined.

End ApiMore.

(** ** What the handlers show to the user *)
Module HandlersSpec.
Import Handlers.

Lemma append_assoc (a b c : string) : (a ++ b) ++ c = a ++ b ++ c.
Proof.
  induction a as [|x a IH]; [reflexivity|].
  change (String x ((a ++ b) ++ c) = String x (a ++ b ++ c)).
  f_equal. exact IH.
Qed.

Lemma readable_failure msg : msg <> EmptyString -> readable (failure msg).
Proof. intros H. split; [exists msg; auto|reflexivity]. Qed.

Lemma readable_handled e : readable (handle_fetch (Raise e)).
Proof. destruct e; apply readable_failure; discriminate. Qed.

Lemma api_data_readable py_str data :
  readable (handle_fetch (Api.scrape_data py_str data)).
Proof.
  unfold Api.scrape_data.
  destruct (Api.py_get data "result" Api.PNone) as [res|e]; cbn [bind];
    [|apply readable_handled].
  destruct (Api.eq_str res "success").
  - destruct (Api.py_get data "rates" (Api.PDict ∅)) as [rates|e];
      cbn [bind]; [|apply readable_handled].
    destruct (Api.py_get rates "VND" Api.PNone) as [v|e]; cbn [bind];
      [|apply readable_handled].
    destruct (Api.truthy v); [|apply readable_failure; discriminate].
    destruct (Api.format_2f v) as [text|e]; cbn [bind];
      [|apply readable_handled].
    split; [eexists|]; reflexivity.
  - destruct (Api.py_get data "error-type" (Api.PStr "Unknown error"))
      as [x|e]; cbn [bind]; [|apply readable_handled].
    apply readable_failure; discriminate.
Qed.

Lemma api_readable py_str (n : net Api.pyval) :
  readable (fst (Api.scrape_aud_rate py_str n)).
Proof.
  unfold Api.scrape_aud_rate, session_get. cbn [fst].
  destruct (replies n (requests n)) as [r|e]; cbn [Api.fetch_body bind];
    [|apply readable_handled].
  destruct (status r =? 200); [|apply readable_failure; discriminate].
  destruct (body r) as [data|e]; cbn [bind]; [|apply readable_handled].
  apply api_data_readable.
Qed.

Lemma webgia_readable (n : net Webgia.page) :
  readable (fst (Webgia.scrape_aud_rate n)).
Proof.
  unfold Webgia.scrape_aud_rate, session_get. cbn [fst].
  destruct (replies n (requests n)) as [r|e]; cbn [Webgia.fetch_body bind];
    [|apply readable_handled].
  destruct (status r =? 200); [|apply readable_failure; discriminate].
  destruct (body r) as [p|e]; cbn [bind]; [|apply readable_handled].
  destruct p as [rows|]; cbn [Webgia.scrape_page handle_fetch];
    [|apply readable_failure; discriminate].
  destruct (Webgia.scan_rows rows);
    [split; [eexists|]; reflexivity|apply readable_failure; discriminate].
Qed.

(** X9. Whatever the upstream does, the dict [scrape_aud_rate] returns, in
    either variant, holds the key its callers read: a rate and no error when
    [success] is true, a non-empty error and no rate when it is false. *)
Theorem X9_every_result_is_readable :
  (forall (py_str : Api.pyval -> string) (n : net Api.pyval),
      readable (fst (Api.scrape_aud_rate py_str n))) /\
  (forall n : net Webgia.page, readable (fst (Webgia.scrape_aud_rate n))).
Proof. split; [exact api_readable|exact webgia_readable]. Qed.

Lemma rate_message_shows (t : texts) (r : Rate) (current_time : string) :
  readable r ->
  exists m, rate_message t r current_time = Ok m /\ shows r current_time m.
Proof.
  unfold readable, rate_message, shows.
  destruct (success r); intros [(x & Hx) _].
  - rewrite Hx. cbn [get_key bind]. eexists. split; [reflexivity|].
    exists x. repeat split.
    + apply TextFacts.contains_app.
    + rewrite <- (append_assoc x), <- (append_assoc (rate_head t)).
      apply TextFacts.contains_app.
  - destruct Hx as [Hx _]. rewrite Hx. cbn [get_key bind].
    eexists. split; [reflexivity|].
    exists x. split; [reflexivity|apply TextFacts.contains_app].
Qed.

Lemma daily_message_shows (t : texts) (r : Rate) (current_time : string) :
  readable r ->
  exists m, daily_message t (r, current_time) = Ok m /\
            shows r current_time m.
Proof.
  unfold readable, daily_message, shows.
  destruct (success r); intros [(x & Hx) _].
  - rewrite Hx. cbn [get_key bind]. eexists. split; [reflexivity|].
    exists x. repeat split.
    + apply TextFacts.contains_app.
    + rewrite <- (append_assoc x), <- (append_assoc (daily_head t)).
      apply TextFacts.contains_app.
  - destruct Hx as [Hx _]. rewrite Hx. cbn [get_key bind].
    eexists. split; [reflexivity|].
    exists x. split; [reflexivity|apply TextFacts.contains_app].
Qed.

Lemma rate_command_spec (t : texts) {N : Type} (scrape : N -> Rate * N)
    (reply_text : nat -> string -> option exn)
    (current_time : string) (n : N) :
  readable (fst (scrape n)) ->
  exists m,
    shows (fst (scrape n)) current_time m /\
    rate_command t scrape reply_text current_time n =
    match reply_text 0%nat (fetching t) with
    | Some e => ([], Raise e, n)
    | None =>
        match reply_text 1%nat m with
        | Some e => ([fetching t], Raise e, snd (scrape n))
        | None => ([fetching t; m], Ok tt, snd (scrape n))
        end
    end.
Proof.
  intros Hr. unfold rate_command.
  destruct (scrape n) as [r n'] eqn:E. cbn [fst snd] in *.
  destruct (rate_message_shows t r current_time Hr) as (m & -> & Hm).
  exists m. split; [assumption|reflexivity].
Qed.

(** X10. [rate_command], in either variant, whatever the upstream does and
    whatever becomes of its replies.  The only exceptions it raises are
    those of its two [reply_text] calls, which it does not catch: building
    the message never fails on a missing key.  When the first reply
    raises, the handler ends there, with no request made and nothing
    delivered.  Otherwise it makes exactly one request and builds one
    message, which shows the rate and the time when the fetch succeeded
    and the error text of the fetch, as it is, when it failed; when
    sending that message raises, the handler raises with one reply
    delivered, and else it returns with two. *)
Theorem X10_rate_command_outcomes :
  (forall (py_str : Api.pyval -> string)
          (reply_text : nat -> string -> option exn)
          (current_time : string) (n : net Api.pyval),
      exists m,
        shows (fst (Api.scrape_aud_rate py_str n)) current_time m /\
        requests (snd (Api.scrape_aud_rate py_str n)) = S (requests n) /\
        rate_command api_texts (Api.scrape_aud_rate py_str) reply_text
                     current_time n =
        match reply_text 0%nat (fetching api_texts) with
        | Some e => ([], Raise e, n)
        | None =>
            match reply_text 1%nat m with
            | Some e =>
                ([fetching api_texts], Raise e,
                 snd (Api.scrape_aud_rate py_str n))
            | None =>
                ([fetching api_texts; m], Ok tt,
                 snd (Api.scrape_aud_rate py_str n))
            end
        end) /\
  (forall (reply_text : nat -> string -> option exn)
          (current_time : string) (n : net Webgia.page),
      exists m,
        shows (fst (Webgia.scrape_aud_rate n)) current_time m /\
        requests (snd (Webgia.scrape_aud_rate n)) = S (requests n) /\
        rate_command webgia_texts Webgia.scrape_aud_rate reply_text
                     current_time n =
        match reply_text 0%nat (fetching webgia_texts) with
        | Some e => ([], Raise e, n)
        | None =>
            match reply_text 1%nat m with
            | Some e =>
                ([fetching webgia_texts], Raise e,
                 snd (Webgia.scrape_aud_rate n))
            | None =>
                ([fetching webgia_texts; m], Ok tt,
                 snd (Webgia.scrape_aud_rate n))
            end
        end).
Proof.
  split.
  - intros py_str reply_text current_time n.
    destruct (rate_command_spec api_texts (Api.scrape_aud_rate py_str)
                reply_text current_time n (api_readable py_str n))
      as (m & Hm & Hrun).
    exists m. split; [assumption|]. split; [reflexivity|assumption].
  - intros reply_text current_time n.
    destruct (rate_command_spec webgia_texts Webgia.scrape_aud_rate
                reply_text current_time n (webgia_readable n))
      as (m & Hm & Hrun).
    exists m. split; [assumption|]. split; [reflexivity|assumption].
Qed.

(** X11. The message [send_daily_rate] builds from the result of the fetch,
    in either variant and whatever the upstream does, is built without a
    missing key; it shows the rate and the time when the fetch succeeded,
    and the error text of the fetch when it failed: a failed fetch is
    broadcast as an error message. *)
Theorem X11_daily_message_shows_rate_or_error :
  (forall (py_str : Api.pyval -> string) (current_time : string)
          (n : net Api.pyval),
      exists m,
        daily_message api_texts
          (fst (Api.scrape_aud_rate py_str n), current_time) = Ok m /\
        shows (fst (Api.scrape_aud_rate py_str n)) current_time m) /\
  (forall (current_time : string) (n : net Webgia.page),
      exists m,
        daily_message webgia_texts
          (fst (Webgia.scrape_aud_rate n), current_time) = Ok m /\
        shows (fst (Webgia.scrape_aud_rate n)) current_time m).
Proof.
  split.
  - intros py_str current_time n.
    apply daily_message_shows, api_readable.
  - intros current_time n. apply daily_message_shows, webgia_readable.
Qed.

(** The replies to [/rate] when the page has the example row and the
    replies are delivered. *)
Example rate_reply_example :
  fst (fst (rate_command webgia_texts Webgia.scrape_aud_rate
              delivered_replies "2024-01-01 09:00:00"
              (Webgia.serving (Some [Webgia.example_row]))))
  = [fetching webgia_texts;
     rate_head webgia_texts ++ "16,500.50" ++ rate_mid webgia_texts
     ++ "2024-01-01 09:00:00" ++ rate_tail webgia_texts].
Proof. vm_compute. reflexivity. Qed.

(** An "error-type" of the upstream goes into the HTML message as it is;
    when Telegram rejects the markup, the handler raises with the first
    reply delivered and the request made. *)
Example rejected_markup :
  let n :=
    Api.serving
      (Api.PDict (<["result" := Api.PStr "error"]>
                    (<["error-type" := Api.PStr "<oops>"]> ∅))) in
  let '(replies, outcome, n') :=
    rate_command api_texts (Api.scrape_aud_rate text_of)
                 (rejecting "<oops>") "2024-01-01 09:00:00" n in
  replies = [fetching api_texts] /\
  outcome = Raise (Error "Can't parse entities: unsupported start tag") /\
  requests n' = 1%nat.
Proof. vm_compute. repeat split. Qed.

End HandlersSpec.

(** ** The subscriber store under sequences of commands *)
Module StoreMore.
Import Bot Session.

Lemma union_present (s : gset Z) x : x ∈ s -> s ∪ {[x]} = s.
Proof.
  intros H. apply set_eq. intros y. rewrite elem_of_union, elem_of_singleton.
  split; [intros [?| ->]; assumption|auto].
Qed.

Lemma difference_absent (s : gset Z) x : x ∉ s -> s ∖ {[x]} = s.
Proof.
  intros H. apply set_eq. intros y.
  rewrite elem_of_difference, elem_of_singleton.
  split; [intros [? _]; assumption|].
  intros Hy. split; [assumption|intros ->; contradiction].
Qed.

Lemma union_difference (s : gset Z) x : x ∉ s -> (s ∪ {[x]}) ∖ {[x]} = s.
Proof.
  intros H. apply set_eq. intros y.
  rewrite elem_of_difference, elem_of_union, elem_of_singleton.
  split.
  - intros [[Hy|Hy] Hne]; [assumption|contradiction].
  - intros Hy. split; [left; assumption|intros ->; contradiction].
Qed.

Lemma save_users order (w : world) :
  subscribed_users (save_subscribers order w) = subscribed_users w.
Proof.
  unfold save_subscribers, save_body.
  destruct (io_fault w); [destruct (io_point w)|]; reflexivity.
Qed.

Lemma save_io order (w : world) :
  io_fault (save_subscribers order w) = io_fault w.
Proof.
  unfold save_subscribers, save_body.
  destruct (io_fault w) eqn:E; [destruct (io_point w)|]; simpl; rewrite ?E;
    reflexivity.
Qed.

Lemma save_calls order (w : world) :
  calls (save_subscribers order w) = calls w.
Proof.
  unfold save_subscribers, save_body.
  destruct (io_fault w); [destruct (io_point w)|]; reflexivity.
Qed.

Lemma handle_users order c (w : world) :
  subscribed_users (snd (handle order c w)) = effect (subscribed_users w) c.
Proof.
  destruct c as [user_id user_name|user_id user_name];
    cbn [handle effect]; unfold subscribe_command, unsubscribe_command;
    destruct (decide (user_id ∈ subscribed_users w)) as [Hin|Hout];
    cbn [snd add_log subscribed_users]; rewrite ?save_users;
    cbn [set_users subscribed_users].
  - symmetry. apply union_present. assumption.
  - reflexivity.
  - reflexivity.
  - symmetry. apply difference_absent. assumption.
Qed.

Lemma handle_io order c (w : world) :
  io_fault (snd (handle order c w)) = io_fault w.
Proof.
  destruct c as [user_id user_name|user_id user_name];
    cbn [handle]; unfold subscribe_command, unsubscribe_command;
    destruct (decide (user_id ∈ subscribed_users w));
    cbn [snd add_log io_fault]; rewrite ?save_io; reflexivity.
Qed.

Lemma handle_calls order c (w : world) :
  calls (snd (handle order c w)) = calls w.
Proof.
  destruct c as [user_id user_name|user_id user_name];
    cbn [handle]; unfold subscribe_command, unsubscribe_command;
    destruct (decide (user_id ∈ subscribed_users w));
    cbn [snd add_log calls]; rewrite ?save_calls; reflexivity.
Qed.

Lemma run_users order cs : forall w : world,
  subscribed_users (run order cs w) = fold_left effect cs (subscribed_users w).
Proof.
  induction cs as [|c cs IH]; intros w; [reflexivity|].
  cbn [run fold_left]. rewrite IH, handle_users. reflexivity.
Qed.

Lemma run_io order cs : forall w : world,
  io_fault (run order cs w) = io_fault w.
Proof.
  induction cs as [|c cs IH]; intros w; [reflexivity|].
  cbn [run]. rewrite IH, handle_io. reflexivity.
Qed.

Lemma run_calls order cs : forall w : world,
  calls (run order cs w) = calls w.
Proof.
  induction cs as [|c cs IH]; intros w; [reflexivity|].
  cbn [run]. rewrite IH, handle_calls. reflexivity.
Qed.

Lemma effect_other (s : gset Z) c x :
  user_of c <> x -> x ∈ effect s c <-> x ∈ s.
Proof.
  destruct c as [user_id user_name|user_id user_name]; cbn [user_of effect];
    intros Hne.
  - rewrite elem_of_union, elem_of_singleton. split; [|auto].
    intros [?|Heq]; [assumption|]. symmetry in Heq. contradiction.
  - rewrite elem_of_difference, elem_of_singleton. split; [intros [? _]|];
      [assumption|].
    intros Hx. split; [assumption|]. intros Heq. symmetry in Heq.
    contradiction.
Qed.

Lemma effect_own (s : gset Z) c :
  user_of c ∈ effect s c <-> is_subscribe c = true.
Proof.
  destruct c as [user_id user_name|user_id user_name];
    cbn [user_of effect is_subscribe].
  - rewrite elem_of_union, elem_of_singleton. split; auto.
  - rewrite elem_of_difference, elem_of_singleton.
    split; [intros [_ Hne]; contradiction|discriminate].
Qed.

Lemma fold_effect_others cs x : forall s : gset Z,
  Forall (fun c => user_of c <> x) cs ->
  x ∈ fold_left effect cs s <-> x ∈ s.
Proof.
  induction cs as [|c cs IH]; intros s Hall; [reflexivity|].
  cbn [fold_left]. apply Forall_cons in Hall as [Hc Hall].
  rewrite IH by assumption. apply effect_other. assumption.
Qed.

(** X12. In every state and whatever the file system does (every save may
    fail), the set in memory after a sequence of subscribe and unsubscribe
    commands is the starting set with the commands applied in order as set
    operations: commands that answer "already subscribed" or "not
    subscribed" count as well, since they leave the set as the operation
    would. *)
Theorem X12_commands_act_as_set_operations
    (order : gset Z -> list Z) (cs : list command) (w : world) :
  subscribed_users (run order cs w)
  = fold_left effect cs (subscribed_users w) /\
  io_fault (run order cs w) = io_fault w /\
  calls (run order cs w) = calls w.
Proof.
  split; [apply run_users|]. split; [apply run_io|apply run_calls].
Qed.

(** X13. The last command of a user decides: after any sequence of commands
    in which the last one of user [u] is [c], [u] is subscribed exactly when
    [c] is a subscribe command, whatever the state before, the commands of
    other users and the faults of the file system. *)
Theorem X13_last_command_of_a_user_decides
    (order : gset Z -> list Z) (before after : list command) (c : command)
    (w : world) :
  Forall (fun c' => user_of c' <> user_of c) after ->
  user_of c ∈ subscribed_users (run order (before ++ c :: after) w)
  <-> is_subscribe c = true.
Proof.
  intros Hafter. rewrite run_users, fold_left_app. cbn [fold_left].
  rewrite fold_effect_others by assumption. apply effect_own.
Qed.

Lemma X13_witness :
  7 ∈ subscribed_users
        (run elements ([Subscribe 7 "Ann"; Subscribe 8 "Bob"]
                       ++ Unsubscribe 7 "Ann" :: [Unsubscribe 8 "Bob"])
             (read_only three_users (Error "Permission denied")))
  <-> is_subscribe (Unsubscribe 7 "Ann") = true.
Proof.
  apply (X13_last_command_of_a_user_decides
           elements [Subscribe 7 "Ann"; Subscribe 8 "Bob"]
           [Unsubscribe 8 "Bob"] (Unsubscribe 7 "Ann")
           (read_only three_users (Error "Permission denied"))).
  apply Forall_cons. split; [|apply Forall_nil; exact I].
  cbn [user_of]. lia.
Defined.



(** A write that fails part of the way leaves a file that no longer
    loads: after a restart the store is empty, the three earlier
    subscribers included.  A write refused at [open()] leaves the old
    file. *)
Example partial_write_loses_the_file :
  let w := set_file "[1, 3, 2]" three_users in
  subscribers_file
    (snd (subscribe_command elements 9 "Ann"
            (failing_write w (Error "No space left on device") 4)))
  = Some "[9, " /\
  persisted
    (snd (subscribe_command elements 9 "Ann"
            (failing_write w (Error "No space left on device") 4)))
  = Some ∅ /\
  persisted
    (snd (subscribe_command elements 9 "Ann"
            (read_only w (Error "Permission denied"))))
  = Some {[1; 3; 2]}.
Proof.
  vm_compute. repeat split.
Qed.

Section Order.

Variable order : gset Z -> list Z.
Hypothesis order_enumerates : forall s : gset Z, order s ≡ₚ elements s.

Lemma handle_changing (c : command) (w : world) :
  io_fault w = None ->
  effect (subscribed_users w) c <> subscribed_users w ->
  persisted (snd (handle order c w)) = Some (effect (subscribed_users w) c).
Proof.
  intros Hio Hchange.
  destruct c as [user_id user_name|user_id user_name];
    cbn [handle effect] in *; unfold subscribe_command, unsubscribe_command;
    destruct (decide (user_id ∈ subscribed_users w)) as [Hin|Hout].
  - exfalso. apply Hchange, union_present. assumption.
  - exact (StoreSpec.persisted_after_save order order_enumerates
             (set_users (subscribed_users w ∪ {[user_id]}) w) Hio).
  - exact (StoreSpec.persisted_after_save order order_enumerates
             (set_users (subscribed_users w ∖ {[user_id]}) w) Hio).
  - exfalso. apply Hchange, difference_absent. assumption.
Qed.

Lemma handle_unchanging (c : command) (w : world) :
  effect (subscribed_users w) c = subscribed_users w ->
  snd (handle order c w) = w.
Proof.
  intros Hsame.
  destruct c as [user_id user_name|user_id user_name];
    cbn [handle effect] in *; unfold subscribe_command, unsubscribe_command;
    destruct (decide (user_id ∈ subscribed_users w)) as [Hin|Hout];
    try reflexivity; exfalso.
  - apply Hout. rewrite <- Hsame.
    apply elem_of_union_r, elem_of_singleton. reflexivity.
  - rewrite <- Hsame in Hin.
    apply elem_of_difference in Hin as [_ Hne].
    apply Hne, elem_of_singleton. reflexivity.
Qed.

Lemma handle_in_sync (c : command) (w : world) :
  io_fault w = None -> in_sync w -> in_sync (snd (handle order c w)).
Proof.
  intros Hio Hsync. unfold in_sync.
  destruct (decide (effect (subscribed_users w) c = subscribed_users w))
    as [Hsame|Hchange].
  - rewrite handle_unchanging by assumption. exact Hsync.
  - rewrite handle_changing by assumption. rewrite handle_users.
    reflexivity.
Qed.

(** X15. Subscriptions survive a restart.  When the file system accepts
    the writes and the file holds the set that is in memory, this is still
    so after any sequence of subscribe and unsubscribe commands: a fresh
    process that loads the file left behind gets the set the commands
    built. *)
Theorem X15_storage_follows_the_commands (cs : list command) (w : world) :
  io_fault w = None ->
  in_sync w ->
  exists w',
    load_subscribers (start (subscribers_file (run order cs w))) = Some w' /\
    subscribed_users w' = fold_left effect cs (subscribed_users w).
Proof.
  intros Hio Hsync.
  assert (in_sync (run order cs w)) as H.
  { revert w Hio Hsync. induction cs as [|c cs IH]; intros w Hio Hsync;
      [exact Hsync|].
    cbn [run]. apply IH; [rewrite handle_io; exact Hio|].
    apply handle_in_sync; assumption. }
  unfold in_sync, persisted in H. rewrite run_users in H.
  destruct (load_subscribers (start (subscribers_file (run order cs w))))
    as [w'|]; [|discriminate].
  exists w'. split; [reflexivity|]. cbn [option_map] in H. congruence.
Qed.

(** X16. Every command that changes the set rewrites the whole file: when
    the write is accepted, the file holds the set that is in memory
    afterwards, also when the file was stale or missing before (earlier
    saves had failed).  A command that changes nothing leaves the world,
    and with it a stale file, as it is. *)
Theorem X16_next_accepted_write_repairs_storage (c : command) (w : world) :
  io_fault w = None ->
  (effect (subscribed_users w) c <> subscribed_users w ->
   in_sync (snd (handle order c w))) /\
  (effect (subscribed_users w) c = subscribed_users w ->
   snd (handle order c w) = w).
Proof.
  intros Hio. split.
  - intros Hchange. unfold in_sync.
    rewrite handle_changing by assumption. rewrite handle_users.
    reflexivity.
  - apply handle_unchanging.
Qed.

(** X17. Subscribing a new user and then unsubscribing them restores the
    set; when the file system accepts the writes the file holds the
    restored set again.  Both commands answer with success, and a second
    unsubscribe is answered with "not subscribed" and changes nothing. *)
Theorem X17_subscribe_then_unsubscribe
    (user_id : Z) (user_name : string) (w : world) :
  user_id ∉ subscribed_users w ->
  io_fault w = None ->
  exists w1 w2,
    subscribe_command order user_id user_name w
    = (SuccessfullySubscribed, w1) /\
    unsubscribe_command order user_id user_name w1
    = (SuccessfullyUnsubscribed, w2) /\
    subscribed_users w2 = subscribed_users w /\
    persisted w2 = Some (subscribed_users w) /\
    unsubscribe_command order user_id user_name w2 = (NotSubscribed, w2).
Proof.
  intros Hnew Hio. unfold subscribe_command.
  destruct (decide (user_id ∈ subscribed_users w)); [contradiction|].
  set (w1 := add_log _ _).
  assert (subscribed_users w1 = subscribed_users w ∪ {[user_id]}) as Hu1.
  { subst w1. cbn [add_log subscribed_users]. rewrite save_users.
    reflexivity. }
  assert (io_fault w1 = None) as Hio1.
  { subst w1. cbn [add_log io_fault]. rewrite save_io. exact Hio. }
  assert (user_id ∈ subscribed_users w1) as Hin1.
  { rewrite Hu1. apply elem_of_union_r, elem_of_singleton. reflexivity. }
  pose proof (handle_users order (Unsubscribe user_id user_name) w1) as Hu2.
  pose proof (handle_changing (Unsubscribe user_id user_name) w1 Hio1)
    as Hp2.
  cbn [handle effect] in Hu2, Hp2.
  rewrite Hu1 in Hu2, Hp2.
  rewrite union_difference in Hu2, Hp2 by assumption.
  exists w1, (snd (unsubscribe_command order user_id user_name w1)).
  split; [reflexivity|]. split; [|split; [exact Hu2|split]].
  - unfold unsubscribe_command.
    destruct (decide (user_id ∈ subscribed_users w1));
      [reflexivity|contradiction].
  - apply Hp2. intros Heq. apply Hnew. rewrite Heq.
    apply elem_of_union_r, elem_of_singleton. reflexivity.
  - unfold unsubscribe_command at 1.
    destruct (decide _) as [Hin2|]; [|reflexivity].
    rewrite Hu2 in Hin2. contradiction.
Qed.

End Order.

Lemma X15_witness :
  exists w',
    load_subscribers
      (start (subscribers_file
                (run elements [Subscribe 7 "Ann"; Unsubscribe 8 "Bob";
                               Subscribe 7 "Ann"; Unsubscribe 7 "Ann";
                               Subscribe 8 "Bob"]
                     (start None)))) = Some w' /\
    subscribed_users w' =
      fold_left effect [Subscribe 7 "Ann"; Unsubscribe 8 "Bob";
                        Subscribe 7 "Ann"; Unsubscribe 7 "Ann";
                        Subscribe 8 "Bob"]
                (subscribed_users (start None)).
Proof.
  apply (X15_storage_follows_the_commands
           elements (fun s => Permutation_refl (elements s))
           [Subscribe 7 "Ann"; Unsubscribe 8 "Bob";
            Subscribe 7 "Ann"; Unsubscribe 7 "Ann"; Subscribe 8 "Bob"]
           (start None)).
  - reflexivity.
  - reflexivity.
Defined.

Lemma X16_witness :
  (effect (subscribed_users three_users) (Subscribe 9 "Ann")
   <> subscribed_users three_users ->
   in_sync (snd (handle elements (Subscribe 9 "Ann") three_users))) /\
  (effect (subscribed_users three_users) (Subscribe 9 "Ann")
   = subscribed_users three_users ->
   snd (handle elements (Subscribe 9 "Ann") three_users) = three_users).
Proof.
  apply (X16_next_accepted_write_repairs_storage
           elements (fun s => Permutation_refl (elements s))
           (Subscribe 9 "Ann") three_users).
  reflexivity.
Defined.

Lemma X17_witness :
  exists w1 w2,
    subscribe_command elements 9 "Ann" three_users
    = (SuccessfullySubscribed, w1) /\
    unsubscribe_command elements 9 "Ann" w1
    = (SuccessfullyUnsubscribed, w2) /\
    subscribed_users w2 = subscribed_users three_users /\
    persisted w2 = Some (subscribed_users three_users) /\
    unsubscribe_command elements 9 "Ann" w2 = (NotSubscribed, w2).
Proof.
  apply (X17_subscribe_then_unsubscribe
           elements (fun s => Permutation_refl (elements s))
           9 "Ann" three_users).
  - apply (bool_decide_unpack _). vm_compute. exact I.
  - reflexivity.
Defined.

(** The stale file of the example: three users in memory, no file; the
    set is written whole by the next command that changes it. *)
Example stale_file_repaired :
  persisted three_users = Some ∅ /\
  persisted (snd (handle elements (Subscribe 9 "Ann") three_users))
  = Some (subscribed_users three_users ∪ {[9]}).
Proof.
  split; [reflexivity|].
  apply (handle_changing elements (fun s => Permutation_refl (elements s))
           (Subscribe 9 "Ann") three_users); [reflexivity|].
  apply (bool_decide_unpack _). vm_compute. exact I.
Qed.

End StoreMore.

(** ** The daily broadcast: the request, the messages and the log *)
Module BroadcastMore.
Import Bot Session.

Lemma send_loop_log deliver (m : message) (snapshot : list Z) :
  forall success_count failed_count (w : world),
    log (snd (send_loop deliver snapshot m success_count failed_count w))
    = (log w ++ send_faults deliver snapshot)%list.
Proof.
  induction snapshot as [|user_id rest IH]; intros sc fc w.
  - cbn. rewrite app_nil_r. reflexivity.
  - rewrite BroadcastSpec.send_loop_cons. unfold send_faults.
    cbn [flat_map]. fold (send_faults deliver rest).
    destruct (deliver user_id) as [e|] eqn:E.
    + rewrite (BroadcastSpec.send_message_fault _ _ _ _ e E), IH.
      cbn [log add_log add_call]. rewrite <- app_assoc. reflexivity.
    + rewrite (BroadcastSpec.send_message_ok _ _ _ _ E), IH.
      reflexivity.
Qed.

Lemma send_faults_length deliver (snapshot : list Z) :
  length (send_faults deliver snapshot)
  = length (List.filter (fun x => negb (delivered deliver x)) snapshot).
Proof.
  induction snapshot as [|user_id rest IH]; [reflexivity|].
  unfold send_faults. cbn [flat_map List.filter].
  fold (send_faults deliver rest). unfold delivered at 1.
  destruct (deliver user_id); cbn [negb app length]; rewrite IH; reflexivity.
Qed.

Lemma send_faults_spec deliver (snapshot : list Z) user_id e :
  In (FailedToSend user_id e) (send_faults deliver snapshot)
  <-> In user_id snapshot /\ deliver user_id = Some e.
Proof.
  unfold send_faults. rewrite in_flat_map. split.
  - intros (x & Hx & Hin). destruct (deliver x) as [e'|] eqn:E;
      [|destruct Hin].
    destruct Hin as [Heq|[]]. injection Heq as -> ->. auto.
  - intros [Hin He]. exists user_id. split; [assumption|].
    rewrite He. left. reflexivity.
Qed.

Lemma daily_requests {N : Type} (requests_of : N -> nat)
    (scrape : N -> Rate * N) order deliver during_fetch current_time
    (n : N) (w : world) :
  (forall n, requests_of (snd (scrape n)) = S (requests_of n)) ->
  let '(tally, w', n') :=
    send_daily_rate order scrape deliver during_fetch current_time n w in
  if decide (subscribed_users w = ∅)
  then tally = None /\ n' = n /\ w' = add_log NoSubscribedUsers w
  else requests_of n' = S (requests_of n).
Proof.
  intros Hone. unfold send_daily_rate.
  destruct (decide (subscribed_users w = ∅)); [auto|].
  specialize (Hone n). destruct (scrape n) as [result n'].
  destruct (send_loop _ _ _ _ _ _) as [[sc fc] w2]. exact Hone.
Qed.

(** X18. [send_daily_rate] asks the upstream only when there is somebody
    to tell: with an empty subscriber set it returns at once, with no
    request, no message and no tally, only the log record that there are
    no subscribers; with a non-empty set it issues exactly one request, in
    either variant and whatever the outcome of the sends. *)
Theorem X18_one_request_unless_nobody_subscribed :
  (forall order py_str deliver during_fetch current_time
          (n : net Api.pyval) (w : world),
      let '(tally, w', n') :=
        send_daily_rate order (Api.scrape_aud_rate py_str) deliver
                        during_fetch current_time n w in
      if decide (subscribed_users w = ∅)
      then tally = None /\ n' = n /\ w' = add_log NoSubscribedUsers w
      else requests n' = S (requests n)) /\
  (forall order deliver during_fetch current_time
          (n : net Webgia.page) (w : world),
      let '(tally, w', n') :=
        send_daily_rate order Webgia.scrape_aud_rate deliver
                        during_fetch current_time n w in
      if decide (subscribed_users w = ∅)
      then tally = None /\ n' = n /\ w' = add_log NoSubscribedUsers w
      else requests n' = S (requests n)).
Proof.
  split; intros; apply (daily_requests requests); reflexivity.
Qed.

Section Variant.

Context {N : Type}.
Variable order : gset Z -> list Z.
Variable scrape_aud_rate : N -> Rate * N.
Variable deliver : Z -> option exn.
Variable current_time : string.

(** X19. Every recipient of one run whose send succeeds gets the same
    message, built from the one result of the fetch and the one time taken
    after it, also when the fetch failed: the error is then broadcast.
    The loop changes neither the subscriber set nor the file: a recipient
    whose send fails (who blocked the bot, say) stays subscribed. *)
Theorem X19_one_message_for_all
    (during_fetch : world -> world) (n : N) (w : world) :
  subscribed_users w <> ∅ ->
  let w1 := at_snapshot during_fetch w in
  let '(_, w', n') :=
    send_daily_rate order scrape_aud_rate deliver during_fetch
                    current_time n w in
  n' = snd (scrape_aud_rate n) /\
  outbox w' =
    (outbox w1 ++
     map (fun user_id => (user_id, (fst (scrape_aud_rate n), current_time)))
         (List.filter (delivered deliver) (order (subscribed_users w1))))%list
  /\
  subscribed_users w' = subscribed_users w1 /\
  subscribers_file w' = subscribers_file w1.
Proof.
  intros Hne w1. unfold send_daily_rate.
  destruct (decide (subscribed_users w = ∅)); [contradiction|].
  destruct (scrape_aud_rate n) as [result n']. fold w1.
  destruct (BroadcastSpec.send_loop_spec deliver (result, current_time)
              (order (subscribed_users w1)) 0 0 w1)
    as (w' & -> & _ & Hout & Hset & Hfile).
  cbn [fst snd add_log outbox subscribed_users subscribers_file].
  auto.
Qed.

(** X20. The log of a run that reaches the loop: after the records up to
    the copy of the set, one error record for every recipient whose send
    raised, in iteration order and with the exception raised, then the
    tally; the failed count of the tally is the number of these error
    records. *)
Theorem X20_log_of_a_run
    (during_fetch : world -> world) (n : N) (w : world) :
  subscribed_users w <> ∅ ->
  let w1 := at_snapshot during_fetch w in
  let snapshot := order (subscribed_users w1) in
  exists success_count failed_count w' n',
    send_daily_rate order scrape_aud_rate deliver during_fetch
                    current_time n w
    = (Some (success_count, failed_count), w', n') /\
    log w' = (log w1 ++ send_faults deliver snapshot
              ++ [DailyRateSent success_count failed_count])%list /\
    length (send_faults deliver snapshot) = failed_count /\
    (forall user_id e,
        In (FailedToSend user_id e) (send_faults deliver snapshot)
        <-> In user_id snapshot /\ deliver user_id = Some e).
Proof.
  intros Hne w1 snapshot. unfold send_daily_rate.
  destruct (decide (subscribed_users w = ∅)); [contradiction|].
  destruct (scrape_aud_rate n) as [result n']. fold w1. fold snapshot.
  pose proof (send_loop_log deliver (result, current_time) snapshot 0 0 w1)
    as Hlog.
  destruct (BroadcastSpec.send_loop_spec deliver (result, current_time)
              snapshot 0 0 w1) as (w' & Hrun & _).
  rewrite Hrun in Hlog |- *. cbn [snd Nat.add] in *.
  eexists _, _, _, _. split; [reflexivity|].
  cbn [log add_log]. rewrite Hlog, <- app_assoc.
  split; [reflexivity|]. split; [apply send_faults_length|].
  apply send_faults_spec.
Qed.

Hypothesis order_enumerates : forall s : gset Z, order s ≡ₚ elements s.

(** X21. The copy of the set is taken after the fetch: the commands
    handled while the fetch is awaited count.  [send_message] is called
    once for each member of the set as those commands leave it, and for
    nobody else: who unsubscribes during the fetch gets no message, who
    subscribes gets one. *)
Theorem X21_commands_during_the_fetch_count
    (cs : list command) (n : N) (w : world) :
  subscribed_users w <> ∅ ->
  exists tally w' n' snapshot,
    send_daily_rate order scrape_aud_rate deliver (run order cs)
                    current_time n w
    = (tally, w', n') /\
    calls w' = (calls w ++ snapshot)%list /\
    snapshot ≡ₚ elements (fold_left effect cs (subscribed_users w)).
Proof.
  intros Hne. unfold send_daily_rate.
  destruct (decide (subscribed_users w = ∅)); [contradiction|].
  destruct (scrape_aud_rate n) as [result n'].
  set (w1 := at_snapshot (run order cs) w).
  destruct (BroadcastSpec.send_loop_spec deliver (result, current_time)
              (order (subscribed_users w1)) 0 0 w1)
    as (w' & -> & Hcalls & _).
  eexists _, _, _, (order (subscribed_users w1)).
  split; [reflexivity|]. cbn [calls add_log]. rewrite Hcalls.
  subst w1. unfold at_snapshot.
  rewrite StoreMore.run_calls, StoreMore.run_users.
  cbn [calls add_log subscribed_users].
  split; [reflexivity|apply order_enumerates].
Qed.

End Variant.

Lemma X19_witness :
  let w1 := at_snapshot (fun w => w) three_users in
  let '(_, w', n') :=
    send_daily_rate elements Webgia.scrape_aud_rate (blocked_by 1)
                    (fun w => w) "2024-01-01 09:00:00"
                    (Webgia.serving None) three_users in
  n' = snd (Webgia.scrape_aud_rate (Webgia.serving None)) /\
  outbox w' =
    (outbox w1 ++
     map (fun user_id =>
            (user_id,
             (fst (Webgia.scrape_aud_rate (Webgia.serving None)),
              "2024-01-01 09:00:00")))
         (List.filter (delivered (blocked_by 1))
                      (elements (subscribed_users w1))))%list /\
  subscribed_users w' = subscribed_users w1 /\
  subscribers_file w' = subscribers_file w1.
Proof.
  apply (X19_one_message_for_all
           elements Webgia.scrape_aud_rate (blocked_by 1)
           "2024-01-01 09:00:00" (fun w => w)
           (Webgia.serving None) three_users).
  apply (bool_decide_unpack _). vm_compute. exact I.
Defined.

Lemma X20_witness :
  let w1 := at_snapshot (fun w => w) three_users in
  let snapshot := elements (subscribed_users w1) in
  exists success_count failed_count w' n',
    send_daily_rate elements Webgia.scrape_aud_rate (blocked_by 1)
                    (fun w => w) "2024-01-01 09:00:00"
                    (Webgia.serving (Some [Webgia.example_row])) three_users
    = (Some (success_count, failed_count), w', n') /\
    log w' = (log w1 ++ send_faults (blocked_by 1) snapshot
              ++ [DailyRateSent success_count failed_count])%list /\
    length (send_faults (blocked_by 1) snapshot) = failed_count /\
    (forall user_id e,
        In (FailedToSend user_id e) (send_faults (blocked_by 1) snapshot)
        <-> In user_id snapshot /\ blocked_by 1 user_id = Some e).
Proof.
  apply (X20_log_of_a_run
           elements Webgia.scrape_aud_rate (blocked_by 1)
           "2024-01-01 09:00:00" (fun w => w)
           (Webgia.serving (Some [Webgia.example_row])) three_users).
  apply (bool_decide_unpack _). vm_compute. exact I.
Defined.

Lemma X21_witness :
  exists tally w' n' snapshot,
    send_daily_rate elements Webgia.scrape_aud_rate (blocked_by 1)
                    (run elements [Unsubscribe 2 "Bob"; Subscribe 9 "Ann"])
                    "2024-01-01 09:00:00"
                    (Webgia.serving (Some [Webgia.example_row])) three_users
    = (tally, w', n') /\
    calls w' = (calls three_users ++ snapshot)%list /\
    snapshot ≡ₚ
      elements (fold_left effect [Unsubscribe 2 "Bob"; Subscribe 9 "Ann"]
                          (subscribed_users three_users)).
Proof.
  apply (X21_commands_during_the_fetch_count
           elements Webgia.scrape_aud_rate (blocked_by 1)
           "2024-01-01 09:00:00"
           (fun s => Permutation_refl (elements s))
           [Unsubscribe 2 "Bob"; Subscribe 9 "Ann"]
           (Webgia.serving (Some [Webgia.example_row])) three_users).
  apply (bool_decide_unpack _). vm_compute. exact I.
Defined.

(** The runs above: the error of a failed fetch goes to the two recipients
    who can be reached, and the log names the one who cannot. *)
Example failed_fetch_is_broadcast :
  let '(_, w', _) :=
    send_daily_rate elements Webgia.scrape_aud_rate (blocked_by 1)
                    (fun w => w) "2024-01-01 09:00:00"
                    (Webgia.serving None) three_users in
  map fst (outbox w') = [3; 2] /\
  map (fun x => error (fst (snd x))) (outbox w')
  = [Some "Exchange rate table not found on page";
     Some "Exchange rate table not found on page"] /\
  log w' = [SendingDailyRate 3;
            FailedToSend 1 (Error "Forbidden: bot was blocked by the user");
            DailyRateSent 2 1].
Proof. vm_compute. repeat split. Qed.

(** Who is called when user 2 unsubscribes and user 9 subscribes while
    the fetch is awaited. *)
Example recipients_after_commands :
  let '(_, w', _) :=
    send_daily_rate elements Webgia.scrape_aud_rate (blocked_by 1)
                    (run elements [Unsubscribe 2 "Bob"; Subscribe 9 "Ann"])
                    "2024-01-01 09:00:00"
                    (Webgia.serving (Some [Webgia.example_row]))
                    three_users in
  calls w' = [9; 3; 1].
Proof. vm_compute. reflexivity. Qed.

End BroadcastMore.
